(** * RawFile and the sync/async bridge: a shallow embedding

    Source files:
    - [src/architecture/data/files.py]      ([FileExtension], [RawFile])
    - [src/architecture/utils/functions.py] ([fire_and_forget]; [run_sync]
      hands its argument to a second thread and is not embedded)

    Python values are rendered as follows.
    - [bytes] is [list byte]; [str] is [string] (8-bit code points).
    - A [RawFile] instance is an object: a cell of the interpreter's heap,
      named by its index.  Methods take [self] as such an index.
    - Everything a method can touch besides its arguments (heap, file system,
      standard input, clock, importable modules, remote services) is a field
      of [World]; a method is a function [World -> outcome A * World].
    - A raised exception is the [Raise] outcome.
    - Library calls the source makes ([base64], [hashlib], [mimetypes],
      [pathlib]) are written out from the library's documented behaviour;
      [gzip], [validators], [zipfile] and the remote services are
      collaborators: fields of the world that say what each call returns. *)

From Stdlib Require Import ZArith NArith Lia List Bool.
From Stdlib Require Import Strings.Ascii Strings.String Strings.Byte.
From stdpp Require Import base option list gmap strings pretty.

Import ListNotations.
Local Open Scope string_scope.
Local Open Scope list_scope.
Local Open Scope N_scope.

(* ===================================================================== *)
(** * Bytes *)
(* ===================================================================== *)

Module Bytes.

(** Python's [bytes]. *)
Abbreviation bytes := (list byte).

(** [bytes([n & 0xff])]. *)
Definition of_N (n : N) : byte :=
match Byte.of_N (n mod 256) with
| Some b => b
| None => x00
end.

(** A bytes literal [b"..."]. *)
Definition lit (s : string) : bytes := list_byte_of_string s.

(** [n] as [k] bytes, least significant first. *)
Fixpoint le_bytes (k : nat) (n : N) : bytes :=
match k with
| O => []
| S k' => of_N n :: le_bytes k' (N.shiftr n 8)
end.

(** [n] as [k] bytes, most significant first. *)
Definition be_bytes (k : nat) (n : N) : bytes := rev (le_bytes k n).

Fixpoint le_word (bs : bytes) : N :=
match bs with
| [] => 0
| b :: bs' => Byte.to_N b + 256 * le_word bs'
end.

Definition be_word (bs : bytes) : N := le_word (rev bs).

(** The 256 byte values in increasing order. *)
Definition all_bytes : list byte :=
  omap Byte.of_N (map N.of_nat (seq 0 256)).

End Bytes.

Import Bytes.

(* ===================================================================== *)
(** * base64 (the [binascii] routines behind [base64.b64encode] and
      [base64.b64decode]) *)
(* ===================================================================== *)

Module Base64.

Definition BASE64_PAD : byte := "="%byte.

Definition table_b2a_base64 : bytes :=
  lit "ABCDEFGHIJKLMNOPQRSTUVWXYZabcdefghijklmnopqrstuvwxyz0123456789+/".

(** The character of a 6-bit value. *)
Definition b2a (n : N) : byte := nth (N.to_nat n) table_b2a_base64 BASE64_PAD.

(** The 6-bit value of a character, [None] outside the alphabet. *)
Definition a2b (c : byte) : option N :=
  let n := Byte.to_N c in
  if (65 <=? n) && (n <=? 90) then Some (n - 65)
  else if (97 <=? n) && (n <=? 122) then Some (n - 71)
  else if (48 <=? n) && (n <=? 57) then Some (n + 4)
  else if n =? 43 then Some 62
  else if n =? 47 then Some 63
  else None.

(** The four characters of a full 3-byte group. *)
Definition encode_group (x y z : byte) : bytes :=
  let x := Byte.to_N x in
  let y := Byte.to_N y in
  let z := Byte.to_N z in
  [ b2a (N.shiftr x 2);
    b2a (N.lor (N.shiftl (N.land x 3) 4) (N.shiftr y 4));
    b2a (N.lor (N.shiftl (N.land y 15) 2) (N.shiftr z 6));
    b2a (N.land z 63) ].

(** [base64.b64encode(s)]: groups of three bytes become four characters,
    a last group of one or two bytes is padded with [=]. *)
Fixpoint b64encode (s : bytes) : bytes :=
match s with
| [] => []
| [x] =>
    let x := Byte.to_N x in
    [ b2a (N.shiftr x 2); b2a (N.shiftl (N.land x 3) 4);
      BASE64_PAD; BASE64_PAD ]
| [x; y] =>
    let x := Byte.to_N x in
    let y := Byte.to_N y in
    [ b2a (N.shiftr x 2);
      b2a (N.lor (N.shiftl (N.land x 3) 4) (N.shiftr y 4));
      b2a (N.shiftl (N.land y 15) 2);
      BASE64_PAD ]
| x :: y :: z :: rest => encode_group x y z ++ b64encode rest
end.

(** Why [a2b_base64] can fail. *)
Inductive b64_error :=
| OneExtraCharacter (decoded : nat)
| IncorrectPadding.

(** [binascii.a2b_base64(s, strict_mode=False)], the loop over the input.
    [quad_pos] counts the characters of the current group, [leftchar] holds
    the bits not yet written, [pads] the [=] seen in a row, [out] the bytes
    written so far, last first.  Characters outside the alphabet are skipped;
    a complete pad sequence ends the parse. *)
Fixpoint a2b_loop (s : bytes) (quad_pos : nat) (leftchar : N) (pads : nat)
    (out : bytes) : b64_error + bytes :=
match s with
| [] =>
    match quad_pos with
    | O => inr (rev out)
    | 1%nat => inl (OneExtraCharacter (length out))
    | _ => inl IncorrectPadding
    end
| c :: s' =>
    if Byte.eqb c BASE64_PAD then
      if (2 <=? quad_pos)%nat then
        if (4 <=? quad_pos + S pads)%nat then inr (rev out)
        else a2b_loop s' quad_pos leftchar (S pads) out
      else a2b_loop s' quad_pos leftchar pads out
    else
      match a2b c with
      | None => a2b_loop s' quad_pos leftchar pads out
      | Some this_ch =>
          match quad_pos with
          | 0%nat => a2b_loop s' 1%nat this_ch 0%nat out
          | 1%nat =>
              a2b_loop s' 2%nat (N.land this_ch 15) 0%nat
                (of_N (N.lor (N.shiftl leftchar 2) (N.shiftr this_ch 4)) :: out)
          | 2%nat =>
              a2b_loop s' 3%nat (N.land this_ch 3) 0%nat
                (of_N (N.lor (N.shiftl leftchar 4) (N.shiftr this_ch 2)) :: out)
          | _ =>
              a2b_loop s' 0%nat 0 0%nat
                (of_N (N.lor (N.shiftl leftchar 6) this_ch) :: out)
          end
      end
end.

Definition a2b_base64 (s : bytes) : b64_error + bytes :=
  a2b_loop s 0%nat 0 0%nat [].

End Base64.

(* ===================================================================== *)
(** * hashlib: MD5 (RFC 1321) and SHA-256 (FIPS 180-4) *)
(* ===================================================================== *)

Module Hashlib.

(** 32-bit words are [N] below [2^32]; sums wrap. *)
Definition mask32 : N := 0xffffffff.
Definition wrap32 (x : N) : N := N.land x mask32.
Definition add32 (x y : N) : N := wrap32 (x + y).
Definition not32 (x : N) : N := N.lxor x mask32.
Definition rotl32 (x : N) (c : N) : N :=
  wrap32 (N.lor (N.shiftl x c) (N.shiftr x (32 - c))).
Definition rotr32 (x : N) (c : N) : N :=
  wrap32 (N.lor (N.shiftr x c) (N.shiftl x (32 - c))).

(** The message followed by [0x80], zeros up to 56 modulo 64, and the bit
    length on 8 bytes (given by [len8]). *)
Definition pad (len8 : N -> bytes) (msg : bytes) : bytes :=
  let n := length msg in
  let zeros := ((64 + 55 - n mod 64) mod 64)%nat in
  msg ++ x80 :: repeat x00 zeros ++ len8 (8 * N.of_nat n).

(** Cuts [bs] into pieces of [size] bytes; [fuel] bounds the number of
    pieces. *)
Fixpoint chunks (fuel size : nat) (bs : bytes) : list bytes :=
match fuel, bs with
| O, _ => []
| _, [] => []
| S fuel', _ => firstn size bs :: chunks fuel' size (skipn size bs)
end.

Definition blocks (bs : bytes) : list bytes := chunks (length bs) 64 bs.

Definition words (decode : bytes -> N) (block : bytes) : list N :=
  map decode (chunks 16 4 block).

Definition hex_digit (n : N) : ascii :=
  nth (N.to_nat n) (list_ascii_of_string "0123456789abcdef") "0"%char.

Definition hex_of_byte (b : byte) : string :=
  let n := Byte.to_N b in
  String (hex_digit (N.shiftr n 4)) (String (hex_digit (N.land n 15)) "").

Definition hexlify (bs : bytes) : string :=
  fold_right (fun b acc => hex_of_byte b ++ acc)%string "" bs.

(** ** MD5 *)

Definition md5_s : list N :=
  [ 7; 12; 17; 22; 7; 12; 17; 22; 7; 12; 17; 22; 7; 12; 17; 22;
    5; 9; 14; 20; 5; 9; 14; 20; 5; 9; 14; 20; 5; 9; 14; 20;
    4; 11; 16; 23; 4; 11; 16; 23; 4; 11; 16; 23; 4; 11; 16; 23;
    6; 10; 15; 21; 6; 10; 15; 21; 6; 10; 15; 21; 6; 10; 15; 21 ].

Definition md5_K : list N :=
  [ 0xd76aa478; 0xe8c7b756; 0x242070db; 0xc1bdceee;
    0xf57c0faf; 0x4787c62a; 0xa8304613; 0xfd469501;
    0x698098d8; 0x8b44f7af; 0xffff5bb1; 0x895cd7be;
    0x6b901122; 0xfd987193; 0xa679438e; 0x49b40821;
    0xf61e2562; 0xc040b340; 0x265e5a51; 0xe9b6c7aa;
    0xd62f105d; 0x02441453; 0xd8a1e681; 0xe7d3fbc8;
    0x21e1cde6; 0xc33707d6; 0xf4d50d87; 0x455a14ed;
    0xa9e3e905; 0xfcefa3f8; 0x676f02d9; 0x8d2a4c8a;
    0xfffa3942; 0x8771f681; 0x6d9d6122; 0xfde5380c;
    0xa4beea44; 0x4bdecfa9; 0xf6bb4b60; 0xbebfbc70;
    0x289b7ec6; 0xeaa127fa; 0xd4ef3085; 0x04881d05;
    0xd9d4d039; 0xe6db99e5; 0x1fa27cf8; 0xc4ac5665;
    0xf4292244; 0x432aff97; 0xab9423a7; 0xfc93a039;
    0x655b59c3; 0x8f0ccc92; 0xffeff47d; 0x85845dd1;
    0x6fa87e4f; 0xfe2ce6e0; 0xa3014314; 0x4e0811a1;
    0xf7537e82; 0xbd3af235; 0x2ad7d2bb; 0xeb86d391 ].

Definition md5_state : Type := N * N * N * N.

Definition md5_init : md5_state :=
  (0x67452301, 0xefcdab89, 0x98badcfe, 0x10325476).

(** Operation [i] of a block whose words are [M]. *)
Definition md5_step (M : list N) (st : md5_state) (i : nat) : md5_state :=
  let '(A, B, C, D) := st in
  let '(F, g) :=
    if (i <? 16)%nat then
      (N.lor (N.land B C) (N.land (not32 B) D), i)
    else if (i <? 32)%nat then
      (N.lor (N.land D B) (N.land (not32 D) C), ((5 * i + 1) mod 16)%nat)
    else if (i <? 48)%nat then
      (N.lxor (N.lxor B C) D, ((3 * i + 5) mod 16)%nat)
    else
      (N.lxor C (N.lor B (not32 D)), ((7 * i) mod 16)%nat) in
  let F := add32 (add32 (add32 F A) (nth i md5_K 0)) (nth g M 0) in
  (D, add32 B (rotl32 F (nth i md5_s 0)), B, C).

Definition md5_block (st : md5_state) (block : bytes) : md5_state :=
  let '(a0, b0, c0, d0) := st in
  let '(A, B, C, D) :=
    fold_left (md5_step (words le_word block)) (seq 0 64) st in
  (add32 a0 A, add32 b0 B, add32 c0 C, add32 d0 D).

Definition md5_digest (msg : bytes) : bytes :=
  let '(a, b, c, d) :=
    fold_left md5_block (blocks (pad (le_bytes 8) msg)) md5_init in
  le_bytes 4 a ++ le_bytes 4 b ++ le_bytes 4 c ++ le_bytes 4 d.

(** [h = hashlib.md5(); h.update(msg); h.hexdigest()]. *)
Definition md5_hexdigest (msg : bytes) : string := hexlify (md5_digest msg).

(** ** SHA-256 *)

Definition is_prime (n : nat) : bool :=
  (2 <=? n)%nat && forallb (fun d => negb (n mod d =? 0)%nat) (seq 2 (n - 2)).

(** The primes below [bound], in increasing order. *)
Definition primes_below (bound : nat) : list N :=
  map N.of_nat (filter is_prime (seq 0 bound)).

(** The integer cube root of [n], found one bit at a time below [2^bits]. *)
Fixpoint cube_root_bits (bits : nat) (n root : N) : N :=
match bits with
| O => root
| S bits' =>
    let candidate := root + 2 ^ N.of_nat bits' in
    cube_root_bits bits' n
      (if candidate ^ 3 <=? n then candidate else root)
end.

(** The first 32 bits of the fractional part of the cube root, and of the
    square root, of [p]. *)
Definition cube_root_fraction (p : N) : N :=
  wrap32 (cube_root_bits 36 (p * 2 ^ 96) 0).

Definition square_root_fraction (p : N) : N :=
  wrap32 (N.sqrt (p * 2 ^ 64)).

(** The round constants come from the first 64 primes, the initial hash
    value from the first 8. *)
Definition sha256_K : list N :=
  Eval vm_compute in map cube_root_fraction (primes_below 312).

Definition sha256_init : list N :=
  Eval vm_compute in map square_root_fraction (primes_below 20).

(** The message schedule: [w] holds the words computed so far, [n] more are
    appended. *)
Fixpoint sha256_schedule (n : nat) (w : list N) : list N :=
match n with
| O => w
| S n' =>
    let i := length w in
    let w15 := nth (i - 15) w 0 in
    let w2 := nth (i - 2) w 0 in
    let s0 := N.lxor (N.lxor (rotr32 w15 7) (rotr32 w15 18)) (N.shiftr w15 3) in
    let s1 := N.lxor (N.lxor (rotr32 w2 17) (rotr32 w2 19)) (N.shiftr w2 10) in
    sha256_schedule n'
      (w ++ [add32 (add32 (add32 (nth (i - 16) w 0) s0) (nth (i - 7) w 0)) s1])
end.

Definition sha256_round (w : list N) (st : list N) (i : nat) : list N :=
match st with
| [a; b; c; d; e; f; g; h] =>
    let S1 := N.lxor (N.lxor (rotr32 e 6) (rotr32 e 11)) (rotr32 e 25) in
    let ch := N.lxor (N.land e f) (N.land (not32 e) g) in
    let temp1 :=
      add32 (add32 (add32 (add32 h S1) ch) (nth i sha256_K 0)) (nth i w 0) in
    let S0 := N.lxor (N.lxor (rotr32 a 2) (rotr32 a 13)) (rotr32 a 22) in
    let maj := N.lxor (N.lxor (N.land a b) (N.land a c)) (N.land b c) in
    let temp2 := add32 S0 maj in
    [add32 temp1 temp2; a; b; c; add32 d temp1; e; f; g]
| _ => st
end.

Definition sha256_block (st : list N) (block : bytes) : list N :=
  let w := sha256_schedule 48 (words be_word block) in
  map (fun p => add32 (fst p) (snd p))
    (combine st (fold_left (sha256_round w) (seq 0 64) st)).

Definition sha256_digest (msg : bytes) : bytes :=
  concat (map (be_bytes 4)
    (fold_left sha256_block (blocks (pad (be_bytes 8) msg)) sha256_init)).

(** [h = hashlib.sha256(); h.update(msg); h.hexdigest()]. *)
Definition sha256_hexdigest (msg : bytes) : string :=
  hexlify (sha256_digest msg).

End Hashlib.

(* ===================================================================== *)
(** * A store-only gzip codec (RFC 1952 members of RFC 1951 stored blocks)

    [gzip.compress] and [gzip.decompress] are collaborators of [RawFile].
    This codec is one implementation of their contract: its writer emits
    what [gzip.compress(data, compresslevel=0)] may emit, and its reader
    accepts members whose blocks are all stored. *)
(* ===================================================================== *)

Module StoredGzip.

(** [zlib.crc32]: CRC-32 with the reflected polynomial [0xEDB88320]. *)
Fixpoint crc32_bits (n : nat) (crc : N) : N :=
match n with
| O => crc
| S n' =>
    crc32_bits n'
      (if N.testbit crc 0 then N.lxor (N.shiftr crc 1) 0xedb88320
       else N.shiftr crc 1)
end.

Definition crc32_byte (crc : N) (b : byte) : N :=
  crc32_bits 8 (N.lxor crc (Byte.to_N b)).

Definition crc32 (data : bytes) : N :=
  N.land (N.lxor (fold_left crc32_byte data 0xffffffff) 0xffffffff) 0xffffffff.

(** The longest stored block. *)
Definition max_stored : N := 65535.

(** The 10-byte header: magic, method 8 (deflate), no flags, [mtime],
    no extra flags, unknown operating system. *)
Definition header (mtime : N) : bytes :=
  [x1f; x8b; x08; x00] ++ le_bytes 4 mtime ++ [x00; xff].

(** One stored block: the final-block bit with block type 00 on one byte,
    the length and its complement on two bytes each, the data. *)
Definition stored_block (final : bool) (data : bytes) : bytes :=
  let len := N.of_nat (length data) in
  (if final then x01 else x00)
    :: le_bytes 2 len ++ le_bytes 2 (max_stored - len) ++ data.

(** The deflate stream of [data] cut into stored blocks of at most [size]
    bytes; [fuel] bounds the number of blocks. *)
Fixpoint stored_blocks (fuel : nat) (size : N) (data : bytes) : bytes :=
match fuel with
| O => stored_block true data
| S fuel' =>
    if (length data <=? N.to_nat size)%nat then stored_block true data
    else
      stored_block false (firstn (N.to_nat size) data)
        ++ stored_blocks fuel' size (skipn (N.to_nat size) data)
end.

Definition trailer (data : bytes) : bytes :=
  le_bytes 4 (crc32 data) ++ le_bytes 4 (N.land (N.of_nat (length data)) 0xffffffff).

Definition compress (mtime : N) (data : bytes) : bytes :=
  header mtime
    ++ stored_blocks (length data) max_stored data
    ++ trailer data.

Inductive error :=
| BadGzipFile (msg : string)
| EOFError (msg : string)
| ZlibError (msg : string).

(** Reads stored blocks up to and including the final one: the data they
    hold, last block first, and what follows the stream. *)
Fixpoint inflate_stored (fuel : nat) (s : bytes) (acc : list bytes)
    : error + (bytes * bytes) :=
match fuel with
| O => inl (ZlibError "incomplete or truncated stream")
| S fuel' =>
    match s with
    | kind :: l0 :: l1 :: n0 :: n1 :: rest =>
        let len := le_word [l0; l1] in
        let nlen := le_word [n0; n1] in
        if negb (Byte.eqb kind x00 || Byte.eqb kind x01) then
          inl (ZlibError "block is not stored")
        else if negb (len + nlen =? max_stored) then
          inl (ZlibError "invalid stored block lengths")
        else if (length rest <? N.to_nat len)%nat then
          inl (ZlibError "incomplete or truncated stream")
        else
          let acc := firstn (N.to_nat len) rest :: acc in
          let rest := skipn (N.to_nat len) rest in
          if Byte.eqb kind x01 then inr (concat (rev acc), rest)
          else inflate_stored fuel' rest acc
    | _ => inl (ZlibError "incomplete or truncated stream")
    end
end.

(** [gzip.decompress] on a single member with no header flags. *)
Definition decompress (s : bytes) : error + bytes :=
match s with
| m0 :: m1 :: method :: flags :: _ :: _ :: _ :: _ :: _ :: _ :: body =>
    if negb (Byte.eqb m0 x1f && Byte.eqb m1 x8b) then
      inl (BadGzipFile "Not a gzipped file")
    else if negb (Byte.eqb method x08) then
      inl (BadGzipFile "Unknown compression method")
    else if negb (Byte.eqb flags x00) then
      inl (BadGzipFile "header flags are not supported")
    else
      match inflate_stored (length body) body [] with
      | inl e => inl e
      | inr (decompressed, unused_data) =>
          match unused_data with
          | c0 :: c1 :: c2 :: c3 :: s0 :: s1 :: s2 :: s3 :: tail =>
              if negb (le_word [c0; c1; c2; c3] =? crc32 decompressed) then
                inl (BadGzipFile "CRC check failed")
              else if negb (le_word [s0; s1; s2; s3]
                            =? N.land (N.of_nat (length decompressed)) 0xffffffff)
              then inl (BadGzipFile "Incorrect length of data produced")
              else if forallb (Byte.eqb x00) tail then inr decompressed
              else inl (BadGzipFile "more than one member")
          | _ =>
              inl (EOFError
                "Compressed file ended before the end-of-stream marker was reached")
          end
      end
| _ => inl (EOFError
    "Compressed file ended before the end-of-stream marker was reached")
end.

End StoredGzip.

(* ===================================================================== *)
(** * str methods *)
(* ===================================================================== *)

Module Str.

Definition is_ascii_lower (c : ascii) : bool :=
  let n := N_of_ascii c in (97 <=? n) && (n <=? 122).

Definition is_ascii_upper (c : ascii) : bool :=
  let n := N_of_ascii c in (65 <=? n) && (n <=? 90).

Definition upper_char (c : ascii) : ascii :=
  if is_ascii_lower c then ascii_of_N (N_of_ascii c - 32) else c.

Definition lower_char (c : ascii) : ascii :=
  if is_ascii_upper c then ascii_of_N (N_of_ascii c + 32) else c.

Fixpoint map_chars (f : ascii -> ascii) (s : string) : string :=
match s with
| EmptyString => EmptyString
| String c s' => String (f c) (map_chars f s')
end.

(** [s.upper()] and [s.lower()].  Letters a-z and A-Z are mapped; among
    the other 8-bit code points Python maps none into the ASCII letters
    apart from [ß], whose upper case is [SS]. *)
Definition upper : string -> string := map_chars upper_char.
Definition lower : string -> string := map_chars lower_char.

(** [s.rfind(c)]: the highest index of [c] in [s], [-1] when absent. *)
Fixpoint rfind (c : ascii) (s : string) : Z :=
match s with
| EmptyString => (-1)%Z
| String a s' =>
    let r := rfind c s' in
    if (0 <=? r)%Z then (r + 1)%Z
    else if Ascii.eqb a c then 0%Z else (-1)%Z
end.

Definition len (s : string) : Z := Z.of_nat (String.length s).

(** [s[i:]] and [s[:i]] for [0 <= i]. *)
Definition slice_from (i : Z) (s : string) : string :=
  let n := Z.to_nat i in substring n (String.length s - n) s.

Definition slice_to (i : Z) (s : string) : string :=
  substring 0 (Z.to_nat i) s.

(** [s[i:i+1]] as an optional character. *)
Definition char_at (i : Z) (s : string) : option ascii :=
  if (i <? 0)%Z then None else String.get (Z.to_nat i) s.

(** [s.lstrip(c)] for a single character [c]. *)
Fixpoint lstrip (c : ascii) (s : string) : string :=
match s with
| EmptyString => EmptyString
| String a s' => if Ascii.eqb a c then lstrip c s' else s
end.

(** [s.split(sep)] for a single character [sep]: never empty. *)
Fixpoint split (sep : ascii) (s : string) : list string :=
match s with
| EmptyString => [EmptyString]
| String c s' =>
    if Ascii.eqb c sep then EmptyString :: split sep s'
    else
      match split sep s' with
      | [] => [String c EmptyString]
      | h :: t => String c h :: t
      end
end.

(** [bool(s)]. *)
Definition truthy (s : string) : bool :=
match s with
| EmptyString => false
| String _ _ => true
end.

(** [d.get(key)] on a table written as a list of pairs. *)
Fixpoint lookup {V} (key : string) (table : list (string * V)) : option V :=
match table with
| [] => None
| (k, v) :: rest => if String.eqb k key then Some v else lookup key rest
end.

End Str.

(* ===================================================================== *)
(** * pathlib: [Path(p).suffix] *)
(* ===================================================================== *)

Module Pathlib.

(** The components of a POSIX path: empty and [.] components are dropped. *)
Definition parts (p : string) : list string :=
  filter (fun c => negb (String.eqb c "") && negb (String.eqb c "."))
    (Str.split "/" p).

(** [Path(p).name]: the final component, if any. *)
Definition name (p : string) : string := List.last (parts p) "".

(** [Path(p).suffix]: from the last dot of the name, unless that dot is the
    first or the last character. *)
Definition suffix (p : string) : string :=
  let name := name p in
  let i := Str.rfind "." name in
  if (0 <? i)%Z && (i <? Str.len name - 1)%Z then Str.slice_from i name
  else "".

End Pathlib.

(* ===================================================================== *)
(** * mimetypes: [guess_type] *)
(* ===================================================================== *)

Module Mimetypes.

Definition suffix_map : list (string * string) :=
  [ (".svgz", ".svg.gz"); (".tgz", ".tar.gz"); (".taz", ".tar.gz");
    (".tz", ".tar.gz"); (".tbz2", ".tar.bz2"); (".txz", ".tar.xz") ].

Definition encodings_map : list (string * string) :=
  [ (".gz", "gzip"); (".Z", "compress"); (".bz2", "bzip2"); (".xz", "xz");
    (".br", "br") ].

(** The entries of the standard table for the suffixes a [FileExtension]
    can produce. *)
Definition types_map : list (string * string) :=
  [ (".pdf", "application/pdf"); (".json", "application/json");
    (".png", "image/png"); (".jpeg", "image/jpeg"); (".jpg", "image/jpeg");
    (".html", "text/html"); (".txt", "text/plain");
    (".md", "text/markdown") ].

(** [posixpath.splitext(p)]: the extension runs from the last dot of the
    last component, leading dots of that component not counted. *)
Fixpoint skip_leading_dots (fuel : nat) (p : string) (filenameIndex dotIndex : Z)
    : string * string :=
match fuel with
| O => (p, "")
| S fuel' =>
    if (filenameIndex <? dotIndex)%Z then
      match Str.char_at filenameIndex p with
      | Some "."%char =>
          skip_leading_dots fuel' p (filenameIndex + 1)%Z dotIndex
      | _ => (Str.slice_to dotIndex p, Str.slice_from dotIndex p)
      end
    else (p, "")
end.

Definition splitext (p : string) : string * string :=
  let sepIndex := Str.rfind "/" p in
  let dotIndex := Str.rfind "." p in
  if (sepIndex <? dotIndex)%Z then
    skip_leading_dots (S (String.length p)) p (sepIndex + 1)%Z dotIndex
  else (p, "").

(** [mimetypes.guess_type(url)[0]] for a name without a URL scheme.  Every
    replacement of [suffix_map] ends in a suffix that is not one of its
    keys, so its loop runs at most once. *)
Definition guess_type (url : string) : option string :=
  let '(base, ext) := splitext url in
  let '(base, ext) :=
    match Str.lookup (Str.lower ext) suffix_map with
    | Some repl => splitext (base ++ repl)
    | None => (base, ext)
    end in
  let '(base, ext) :=
    match Str.lookup ext encodings_map with
    | Some _ => splitext base
    | None => (base, ext)
    end in
  Str.lookup (Str.lower ext) types_map.

End Mimetypes.

(* ===================================================================== *)
(** * files.py *)
(* ===================================================================== *)

Module Files.

(** ** [class FileExtension(str, Enum)] *)

Inductive FileExtension := PDF | JSON | PNG | JPEG | JPG | HTML | TXT | MD.

(** [FileExtension.__members__]: member names in definition order. *)
Definition members : list (string * FileExtension) :=
  [ ("PDF", PDF); ("JSON", JSON); ("PNG", PNG); ("JPEG", JPEG);
    ("JPG", JPG); ("HTML", HTML); ("TXT", TXT); ("MD", MD) ].

(** [e.value]. *)
Definition value (e : FileExtension) : string :=
match e with
| PDF => "pdf"
| JSON => "json"
| PNG => "png"
| JPEG => "jpeg"
| JPG => "jpg"
| HTML => "html"
| TXT => "txt"
| MD => "md"
end.

(** [e.name]. *)
Definition name (e : FileExtension) : string :=
match e with
| PDF => "PDF"
| JSON => "JSON"
| PNG => "PNG"
| JPEG => "JPEG"
| JPG => "JPG"
| HTML => "HTML"
| TXT => "TXT"
| MD => "MD"
end.

(** [FileExtension(v)]: the member whose value is [v]. *)
Definition by_value (v : string) : option FileExtension :=
  snd <$> List.find (fun m => String.eqb (value (snd m)) v) members.

(** [FileExtension[n]], defined when [n in FileExtension.__members__]. *)
Definition by_name (n : string) : option FileExtension := Str.lookup n members.

(** [f"{e}"]: a member of an enum mixed with [str] formats as its [str()],
    the class name and the member name (Python 3.11 and later). *)
Definition format (e : FileExtension) : string := "FileExtension." ++ name e.

(** [bool(x)] for [x : Optional[FileExtension]]: [None] is false, a member
    is a [str] and is true unless empty. *)
Definition truthy (x : option FileExtension) : bool :=
match x with
| None => false
| Some e => Str.truthy (value e)
end.

(** ** [class RawFile(msgspec.Struct, frozen=True, gc=False)] *)

Record RawFile := mkRawFile { contents : bytes; extension : FileExtension }.

(** ** Exceptions *)

Inductive exception :=
| FileNotFoundError (msg : string)
| IsADirectoryError (msg : string)
| ValueError (msg : string)
| ImportError (msg : string)
| KeyError (msg : string)
| AttributeError (msg : string)
| BinasciiError (msg : string)   (* [binascii.Error] *)
| Foreign (origin msg : string)  (* raised inside a collaborator *)
| DanglingReference.             (* a location that names no object *)

Inductive outcome (A : Type) :=
| Ok (a : A)
| Raise (e : exception).

Arguments Ok {A} a.
Arguments Raise {A} e.

(** ** The world *)

Inductive node := File (data : bytes) | Directory.

(** A [requests.Response]: body and header fields. *)
Record Response := mkResponse {
  content : bytes;
  headers : list (string * string)
}.

(** The external collaborators: what each library or service call returns.
    [inl e] stands for the call raising [e]. *)
Record Collaborators := {
  (** [gzip.compress(data)] at time [mtime]; [gzip.decompress(data)] *)
  gzip_compress : N -> bytes -> bytes;
  gzip_decompress : bytes -> exception + bytes;
  (** [validators.url(url)] is [True] (else a falsy failure object) *)
  validators_url : string -> bool;
  (** the members of a ZIP archive given its bytes *)
  zip_members : bytes -> exception + list (string * bytes);
  (** [importlib.find_loader(name) is not None] *)
  find_loader : string -> bool;
  (** [requests.get(url, ...)] *)
  requests_get : string -> exception + Response;
  (** [boto3.client("s3")], [head_object(...)], its ["ContentType"] entry
      if any, and [get_object(...)["Body"].read()] *)
  s3_client : exception + unit;
  s3_head_object : string -> string -> exception + option string;
  s3_get_object : string -> string -> exception + bytes;
  (** [BlobServiceClient.from_connection_string(c)], the blob's
      [content_settings.content_type], and [download_blob().readall()] *)
  azure_client : string -> exception + unit;
  azure_blob_properties : string -> string -> string -> exception + option string;
  azure_download_blob : string -> string -> string -> exception + bytes;
  (** [google.cloud.storage.Client()], [blob.reload()] followed by
      [blob.content_type], and [blob.download_as_bytes()] *)
  gcs_client : exception + unit;
  gcs_reload : string -> string -> exception + option string;
  gcs_download : string -> string -> exception + bytes;
  (** connect to [host], log in, [RETR filepath], quit *)
  ftp_retrieve : string -> string -> string -> string -> exception + bytes
}.

Definition loc := nat.

Record World := mkWorld {
  heap : list RawFile;          (* the RawFile objects, by location *)
  fs : gmap string node;        (* the local file system, by path *)
  stdin : bytes;                (* what is left to read on standard input *)
  clock : N;                    (* [time.time()] *)
  requests_log : list string;   (* URLs passed to [requests.get], last first *)
  env : Collaborators
}.

Definition set_heap (h : list RawFile) (w : World) : World :=
  mkWorld h (fs w) (stdin w) (clock w) (requests_log w) (env w).

Definition set_fs (f : gmap string node) (w : World) : World :=
  mkWorld (heap w) f (stdin w) (clock w) (requests_log w) (env w).

Definition set_stdin (s : bytes) (w : World) : World :=
  mkWorld (heap w) (fs w) s (clock w) (requests_log w) (env w).

Definition set_requests_log (l : list string) (w : World) : World :=
  mkWorld (heap w) (fs w) (stdin w) (clock w) l (env w).

(** ** Computations *)

Definition M (A : Type) : Type := World -> outcome A * World.

Definition ret {A} (a : A) : M A := fun w => (Ok a, w).

Definition raise {A} (e : exception) : M A := fun w => (Raise e, w).

Definition bind {A B} (m : M A) (k : A -> M B) : M B :=
  fun w =>
    match m w with
    | (Ok a, w') => k a w'
    | (Raise e, w') => (Raise e, w')
    end.

Notation "'let*' x ':=' m 'in' k" := (bind m (fun x => k))
  (at level 10, x name, m at level 100, k at level 200, only parsing).

(** Reads a component of the world. *)
Definition gets {A} (f : World -> A) : M A := fun w => (Ok (f w), w).

Definition modify (f : World -> World) : M unit := fun w => (Ok tt, f w).

(** The outcome of a collaborator's call. *)
Definition call {A} (f : Collaborators -> exception + A) : M A :=
  fun w =>
    match f (env w) with
    | inr a => (Ok a, w)
    | inl e => (Raise e, w)
    end.

(** [cls(contents=..., extension=...)]: a new object, at a new location. *)
Definition new (f : RawFile) : M loc :=
  fun w => (Ok (length (heap w)), set_heap (heap w ++ [f]) w).

(** The object [self] names. *)
Definition deref (self : loc) : M RawFile :=
  fun w =>
    match heap w !! self with
    | Some f => (Ok f, w)
    | None => (Raise DanglingReference, w)
    end.

(** [Path(p).exists()] and [Path(p).is_file()]. *)
Definition path_exists (p : string) : M bool :=
  gets (fun w => match fs w !! p with Some _ => true | None => false end).

Definition path_is_file (p : string) : M bool :=
  gets (fun w => match fs w !! p with Some (File _) => true | _ => false end).

(** [with open(p, "rb") as f: f.read()]. *)
Definition read_binary (p : string) : M bytes :=
  fun w =>
    match fs w !! p with
    | Some (File data) => (Ok data, w)
    | Some Directory =>
        (Raise (IsADirectoryError ("[Errno 21] Is a directory: '" ++ p ++ "'")), w)
    | None =>
        (Raise (FileNotFoundError
                  ("[Errno 2] No such file or directory: '" ++ p ++ "'")), w)
    end.

(** [with open(p, "wb") as f: f.write(data)].  Paths are keys of a flat
    map: the directory a new file goes into is not looked up. *)
Definition write_binary (p : string) (data : bytes) : M unit :=
  fun w =>
    match fs w !! p with
    | Some Directory =>
        (Raise (IsADirectoryError ("[Errno 21] Is a directory: '" ++ p ++ "'")), w)
    | _ => (Ok tt, set_fs (<[p := File data]> (fs w)) w)
    end.

(** [FileExtension(v)] as a call: [ValueError] when no member has value [v]. *)
Definition FileExtension_call (v : string) : M FileExtension :=
match by_value v with
| Some e => ret e
| None => raise (ValueError ("'" ++ v ++ "' is not a valid FileExtension"))
end.

(** [Path(p).suffix.lstrip(".")]. *)
Definition suffix_of (p : string) : string :=
  Str.lstrip "." (Pathlib.suffix p).

Definition newline : string := String (ascii_of_N 10) "".

(** The text of the [ImportError] raised when an optional package is
    missing. *)
Definition install_hint (product package : string) : string :=
  let indent := "                " in
  newline ++ indent ++ product
    ++ " is required to use this method. Please install it with:"
    ++ newline ++ indent ++ ">>> pip install " ++ package
    ++ newline ++ indent.

Definition undetermined : string :=
  "Unable to determine the file extension. Please specify it explicitly.".

(** ** [RawFile._get_extension_from_content_type] *)

Definition content_type_map : list (string * FileExtension) :=
  [ ("application/pdf", PDF); ("application/json", JSON);
    ("image/png", PNG); ("image/jpeg", JPEG); ("image/jpg", JPG);
    ("text/html", HTML); ("text/plain", TXT) ].

Definition _get_extension_from_content_type (content_type : option string)
    : option FileExtension :=
match content_type with
| Some ct => Str.lookup ct content_type_map
| None => None
end.

(** ** Acquisition constructors *)

(** [RawFile.from_file_path(file_path)]. *)
Definition from_file_path (file_path : string) : M loc :=
  let* exists_ := path_exists file_path in
  if negb exists_ then
    raise (FileNotFoundError ("File not found at " ++ file_path))
  else
  let* is_file := path_is_file file_path in
  if negb is_file then raise (ValueError (file_path ++ " is not a file"))
  else
  let* data := read_binary file_path in
  let* extension := FileExtension_call (suffix_of file_path) in
  new (mkRawFile data extension).

(** [RawFile.from_bytes(data, extension)]. *)
Definition from_bytes (data : bytes) (extension : FileExtension) : M loc :=
  new (mkRawFile data extension).

(** [base64.b64decode(s)] for [s : str]: the string must be ASCII; it is
    then decoded leniently by [binascii.a2b_base64]. *)
Definition b64decode (s : string) : M bytes :=
  if forallb (fun c => N_of_ascii c <? 128) (list_ascii_of_string s) then
    match Base64.a2b_base64 (list_byte_of_string s) with
    | inr data => ret data
    | inl (Base64.OneExtraCharacter decoded) =>
        raise (BinasciiError
          ("Invalid base64-encoded string: number of data characters ("
           ++ pretty (decoded / 3 * 4 + 1)%nat
           ++ ") cannot be 1 more than a multiple of 4"))
    | inl Base64.IncorrectPadding => raise (BinasciiError "Incorrect padding")
    end
  else raise (ValueError "string argument should contain only ASCII characters").

(** [RawFile.from_base64(b64_string, extension)]. *)
Definition from_base64 (b64_string : string) (extension : FileExtension)
    : M loc :=
  let* data := b64decode b64_string in
  from_bytes data extension.

(** [response.headers.get(name, default)]: header names compare without
    regard to case. *)
Definition headers_get (name default_ : string) (hs : list (string * string))
    : string :=
  default default_
    (snd <$> List.find
       (fun h => String.eqb (Str.lower (fst h)) (Str.lower name)) hs).

(** [x or y] for [x : Optional[FileExtension]]. *)
Definition or_else (x : option FileExtension) (y : FileExtension)
    : FileExtension :=
match x with
| Some e => if truthy x then e else y
| None => y
end.

(** [RawFile.from_url(url, extension=extension)], the other keyword
    arguments being handed unchanged to [requests.get].  The value of
    [validators.url(url)] is not used.  [response.content] is [bytes], so
    the [isinstance] branch is not taken. *)
Definition from_url (url : string) (extension : option FileExtension)
    : M loc :=
  let* _ := gets (fun w => validators_url (env w) url) in
  let* _ := modify (fun w => set_requests_log (url :: requests_log w) w) in
  let* response := call (fun c => requests_get c url) in
  let response_content := content response in
  let file_extension :=
    or_else extension
      (or_else
         (_get_extension_from_content_type
            (Some (hd "" (Str.split ";"
               (headers_get "Content-Type" "" (headers response))))))
         HTML) in
  new (mkRawFile response_content file_extension).

(** [RawFile.from_s3(bucket_name, object_key, extension)]. *)
Definition from_s3 (bucket_name object_key : string)
    (extension : option FileExtension) : M loc :=
  let* loader := gets (fun w => find_loader (env w) "boto3") in
  if negb loader then raise (ImportError (install_hint "Boto3" "boto3"))
  else
  let* s3 := call s3_client in
  let* extension :=
    if negb (truthy extension) then
      let ext := suffix_of object_key in
      match by_name (Str.upper ext) with
      | Some member => ret (Some member)
      | None =>
          let* head_object :=
            call (fun c => s3_head_object c bucket_name object_key) in
          let content_type := default "" head_object in
          ret (_get_extension_from_content_type (Some content_type))
      end
    else ret extension in
  match extension with
  | Some e =>
      if negb (truthy extension) then raise (ValueError undetermined)
      else
      let* data := call (fun c => s3_get_object c bucket_name object_key) in
      new (mkRawFile data e)
  | None => raise (ValueError undetermined)
  end.

(** [RawFile.from_azure_blob(connection_string, container_name, blob_name,
    extension)]. *)
Definition from_azure_blob (connection_string container_name blob_name : string)
    (extension : option FileExtension) : M loc :=
  let* loader := gets (fun w => find_loader (env w) "azure.storage.blob") in
  if negb loader then
    raise (ImportError (install_hint "Azure SDK" "azure-storage-blob"))
  else
  let* blob_service_client := call (fun c => azure_client c connection_string) in
  let* extension :=
    if negb (truthy extension) then
      let ext := suffix_of blob_name in
      match by_name (Str.upper ext) with
      | Some member => ret (Some member)
      | None =>
          let* content_type :=
            call (fun c =>
              azure_blob_properties c connection_string container_name
                blob_name) in
          match content_type with
          | None => raise (ValueError undetermined)
          | Some _ => ret (_get_extension_from_content_type content_type)
          end
      end
    else ret extension in
  match extension with
  | Some e =>
      if negb (truthy extension) then raise (ValueError undetermined)
      else
      let* data :=
        call (fun c =>
          azure_download_blob c connection_string container_name blob_name) in
      new (mkRawFile data e)
  | None => raise (ValueError undetermined)
  end.

(** [RawFile.from_gcs(bucket_name, blob_name, extension)]. *)
Definition from_gcs (bucket_name blob_name : string)
    (extension : option FileExtension) : M loc :=
  let* loader := gets (fun w => find_loader (env w) "google.cloud.storage") in
  if negb loader then
    raise (ImportError
      (install_hint "Google Cloud Storage" "google-cloud-storage"))
  else
  let* client := call gcs_client in
  let* extension :=
    if negb (truthy extension) then
      let ext := suffix_of blob_name in
      match by_name (Str.upper ext) with
      | Some member => ret (Some member)
      | None =>
          let* content_type :=
            call (fun c => gcs_reload c bucket_name blob_name) in
          ret (_get_extension_from_content_type content_type)
      end
    else ret extension in
  match extension with
  | Some e =>
      if negb (truthy extension) then raise (ValueError undetermined)
      else
      let* data := call (fun c => gcs_download c bucket_name blob_name) in
      new (mkRawFile data e)
  | None => raise (ValueError undetermined)
  end.

(** [RawFile.from_zip(zip_file_path, inner_file_path, extension)]. *)
Definition from_zip (zip_file_path inner_file_path : string)
    (extension : option FileExtension) : M loc :=
  let* archive := read_binary zip_file_path in
  let* zip_ref := call (fun c => zip_members c archive) in
  match Str.lookup inner_file_path zip_ref with
  | None =>
      raise (KeyError
        ("There is no item named '" ++ inner_file_path ++ "' in the archive"))
  | Some data =>
      let* extension :=
        match extension with
        | Some e =>
            if negb (truthy extension) then
              FileExtension_call (suffix_of inner_file_path)
            else ret e
        | None => FileExtension_call (suffix_of inner_file_path)
        end in
      new (mkRawFile data extension)
  end.

(** [RawFile.from_database_blob(blob_data, extension)]. *)
Definition from_database_blob (blob_data : bytes) (extension : FileExtension)
    : M loc :=
  from_bytes blob_data extension.

(** [RawFile.from_stdin(extension)]: reads standard input to its end. *)
Definition from_stdin (extension : FileExtension) : M loc :=
  let* data := gets stdin in
  let* _ := modify (set_stdin []) in
  from_bytes data extension.

(** [RawFile.from_ftp(host, filepath, username, password, extension)]. *)
Definition from_ftp (host filepath username password : string)
    (extension : option FileExtension) : M loc :=
  let* data := call (fun c => ftp_retrieve c host username password filepath) in
  let* extension :=
    match extension with
    | Some e =>
        if negb (truthy extension) then
          FileExtension_call (suffix_of filepath)
        else ret e
    | None => FileExtension_call (suffix_of filepath)
    end in
  new (mkRawFile data extension).

(** ** Instance methods *)

(** [self.save_to_file(file_path)]. *)
Definition save_to_file (self : loc) (file_path : string) : M unit :=
  let* f := deref self in
  write_binary file_path (contents f).

(** [self.get_size()]. *)
Definition get_size (self : loc) : M nat :=
  let* f := deref self in
  ret (length (contents f)).

(** [self.compute_md5()]. *)
Definition compute_md5 (self : loc) : M string :=
  let* f := deref self in
  ret (Hashlib.md5_hexdigest (contents f)).

(** [self.compute_sha256()]. *)
Definition compute_sha256 (self : loc) : M string :=
  let* f := deref self in
  ret (Hashlib.sha256_hexdigest (contents f)).

(** [self.get_mime_type()]. *)
Definition get_mime_type (self : loc) : M string :=
  let* f := deref self in
  let mime_type := Mimetypes.guess_type ("file." ++ format (extension f)) in
  ret (match mime_type with
       | Some m => if Str.truthy m then m else "application/octet-stream"
       | None => "application/octet-stream"
       end).

(** [self.compress()]. *)
Definition compress (self : loc) : M loc :=
  let* f := deref self in
  let* compressed_data :=
    gets (fun w => gzip_compress (env w) (clock w) (contents f)) in
  new (mkRawFile compressed_data (extension f)).

(** [self.decompress()]. *)
Definition decompress (self : loc) : M loc :=
  let* f := deref self in
  let* decompressed_data := call (fun c => gzip_decompress c (contents f)) in
  new (mkRawFile decompressed_data (extension f)).

(** [await self.read_async()]. *)
Definition read_async (self : loc) : M bytes :=
  let* f := deref self in
  ret (contents f).

(** [self.__enter__()] and [self.__exit__(exc_type, exc_value, traceback)]. *)
Definition __enter__ (self : loc) : M loc := ret self.

Definition __exit__ (self : loc) : M unit := ret tt.

(** [self.contents = data] and [self.extension = e]: the struct is frozen,
    the assignment raises and stores nothing. *)
Definition __setattr__ (self : loc) (attribute : string) : M unit :=
  raise (AttributeError "immutable type: 'RawFile'").

(** ** The public interface

    What a client can do with an instance it holds, and what it gets back. *)

Inductive operation :=
| SaveToFile (file_path : string)
| GetSize
| ComputeMd5
| ComputeSha256
| GetMimeType
| Compress
| Decompress
| ReadAsync
| Enter
| Exit
| SetContents (data : bytes)
| SetExtension (e : FileExtension).

Inductive result :=
| RNone
| RInt (n : nat)
| RStr (s : string)
| RBytes (b : bytes)
| RObject (l : loc).

Definition perform (op : operation) (self : loc) : M result :=
match op with
| SaveToFile file_path =>
    let* _ := save_to_file self file_path in ret RNone
| GetSize => let* n := get_size self in ret (RInt n)
| ComputeMd5 => let* s := compute_md5 self in ret (RStr s)
| ComputeSha256 => let* s := compute_sha256 self in ret (RStr s)
| GetMimeType => let* s := get_mime_type self in ret (RStr s)
| Compress => let* l := compress self in ret (RObject l)
| Decompress => let* l := decompress self in ret (RObject l)
| ReadAsync => let* b := read_async self in ret (RBytes b)
| Enter => let* l := __enter__ self in ret (RObject l)
| Exit => let* _ := __exit__ self in ret RNone
| SetContents _ => let* _ := __setattr__ self "contents" in ret RNone
| SetExtension _ => let* _ := __setattr__ self "extension" in ret RNone
end.

(** [self == other]: structs compare field by field; bytes compare by
    content, members (being [str]) by value. *)
Fixpoint bytes_eq (a b : bytes) : bool :=
match a, b with
| [], [] => true
| x :: a', y :: b' => Byte.eqb x y && bytes_eq a' b'
| _, _ => false
end.

Definition __eq__ (self other : loc) : M bool :=
  let* a := deref self in
  let* b := deref other in
  ret (bytes_eq (contents a) (contents b)
       && String.eqb (value (extension a)) (value (extension b))).

(** ** The constructors that take [extension: Optional[FileExtension] = None] *)

Inductive source :=
| Url (url : string)
| S3 (bucket_name object_key : string)
| AzureBlob (connection_string container_name blob_name : string)
| Gcs (bucket_name blob_name : string)
| Zip (zip_file_path inner_file_path : string)
| Ftp (host filepath username password : string).

Definition acquire (s : source) (extension : option FileExtension) : M loc :=
match s with
| Url url => from_url url extension
| S3 bucket_name object_key => from_s3 bucket_name object_key extension
| AzureBlob connection_string container_name blob_name =>
    from_azure_blob connection_string container_name blob_name extension
| Gcs bucket_name blob_name => from_gcs bucket_name blob_name extension
| Zip zip_file_path inner_file_path =>
    from_zip zip_file_path inner_file_path extension
| Ftp host filepath username password =>
    from_ftp host filepath username password extension
end.

(** ** Properties named in the statements below *)

(** The contract of the gzip collaborator the round trip relies on. *)
Definition gzip_round_trip (c : Collaborators) : Prop :=
  forall mtime data, gzip_decompress c (gzip_compress c mtime data) = inr data.

(** A call, as Python binds it: the arguments are matched against the
    parameters of the function before its body runs.  Either they fit, and
    the body runs, or an argument has no parameter to go to, and the call
    raises [TypeError] without running the body. *)
Inductive binding :=
| Runs (body : M loc)
| TypeError.

(** A constructor that acquires from a source, with its locator. *)
Inductive acquisition_constructor :=
| FromFilePath (file_path : string)
| FromSource (s : source).

(** The call that passes [extension=t] to the constructor.
    [from_file_path(cls, file_path)] has no such parameter. *)
Definition pass_extension (c : acquisition_constructor) (t : FileExtension)
    : binding :=
match c with
| FromFilePath _ => TypeError
| FromSource s => Runs (acquire s (Some t))
end.

(** The constructor accepts an explicit tag, and the file it then returns
    carries that tag. *)
Definition override_wins (c : acquisition_constructor) : Prop :=
  forall t,
    match pass_extension c t with
    | Runs body =>
        forall w l w',
          body w = (Ok l, w') -> extension <$> heap w' !! l = Some t
    | TypeError => False
    end.

(** The content type a response declares, parameters dropped: what
    [from_url] looks up when no tag is given. *)
Definition declared_content_type (r : Response) : string :=
  hd "" (Str.split ";" (headers_get "Content-Type" "" (headers r))).

End Files.

(* ===================================================================== *)
(** * functions.py: [fire_and_forget] *)
(* ===================================================================== *)

Module Functions.

Inductive exception :=
| RuntimeError (msg : string)
| Failure (name : string).   (* any other exception, by class name *)

Inductive outcome (A : Type) :=
| Ok (a : A)
| Raise (e : exception).

Arguments Ok {A} a.
Arguments Raise {A} e.

Section Asyncio.

(** What a computation can do to the outside, e.g. increment a counter. *)
Variable effect : Type.

(** A coroutine object: what the call [async_func(args)] evaluates to.
    It performs effects, gives control back to its event loop at [Await],
    and ends by returning or raising. *)
Inductive coroutine (A : Type) :=
| Return (a : A)
| Throw (e : exception)
| Perform (ev : effect) (k : coroutine A)
| Await (k : coroutine A).

Arguments Return {A} a.
Arguments Throw {A} e.
Arguments Perform {A} ev k.
Arguments Await {A} k.

(** A task's result is nobody's: the coroutine seen as one returning
    nothing. *)
Fixpoint forget {A} (c : coroutine A) : coroutine unit :=
match c with
| Return _ => Return tt
| Throw e => Throw e
| Perform ev k => Perform ev (forget k)
| Await k => Await (forget k)
end.

(** An event loop: the tasks it has been given and not finished, oldest
    first, and whether it has been closed. *)
Record Loop := mkLoop {
  tasks : list (coroutine unit);
  closed : bool
}.

(** The calling thread: the loop running on it, if any, every loop created
    so far, and the effects performed so far, oldest first. *)
Record Thread := mkThread {
  running : option nat;
  loops : list Loop;
  performed : list effect
}.

Definition M (A : Type) : Type := Thread -> outcome A * Thread.

Definition ret {A} (a : A) : M A := fun t => (Ok a, t).

Definition bind {A B} (m : M A) (k : A -> M B) : M B :=
  fun t =>
    match m t with
    | (Ok a, t') => k a t'
    | (Raise e, t') => (Raise e, t')
    end.

(** [try: body  except RuntimeError: handler]. *)
Definition try_except_RuntimeError {A} (body handler : M A) : M A :=
  fun t =>
    match body t with
    | (Raise (RuntimeError _), t') => handler t'
    | r => r
    end.

(** [asyncio.get_running_loop()]. *)
Definition get_running_loop : M nat :=
  fun t =>
    match running t with
    | Some loop => (Ok loop, t)
    | None => (Raise (RuntimeError "no running event loop"), t)
    end.

(** [loop.create_task(coro)]: the task joins the loop's queue; nothing of
    it runs before control is back in the loop. *)
Definition create_task {A} (loop : nat) (coro : coroutine A) : M unit :=
  fun t =>
    match loops t !! loop with
    | Some l =>
        if closed l then (Raise (RuntimeError "Event loop is closed"), t)
        else
          (Ok tt,
           mkThread (running t)
             (<[loop := mkLoop (tasks l ++ [forget coro]) (closed l)]> (loops t))
             (performed t))
    | None => (Raise (RuntimeError "Event loop is closed"), t)
    end.

(** [loop.run_until_complete(coro)] on a loop holding no other task: the
    coroutine is resumed after each [Await] until it ends. *)
Fixpoint run_until_complete {A} (coro : coroutine A) (done : list effect)
    : outcome A * list effect :=
match coro with
| Return a => (Ok a, done)
| Throw e => (Raise e, done)
| Perform ev k => run_until_complete k (done ++ [ev])
| Await k => run_until_complete k done
end.

(** [asyncio.run(coro)]: refused inside a running loop; else a new loop is
    created and made the running one, drives [coro] to its end, and is
    closed whatever the outcome. *)
Definition asyncio_run {A} (coro : coroutine A) : M A :=
  fun t =>
    match running t with
    | Some _ =>
        (Raise (RuntimeError
           "asyncio.run() cannot be called from a running event loop"), t)
    | None =>
        let '(r, done) := run_until_complete coro (performed t) in
        (r, mkThread None (loops t ++ [mkLoop [] true]) done)
    end.

(** [fire_and_forget(async_func, args)], where [coro] is what the call
    [async_func(args)] evaluates to. *)
Definition fire_and_forget {A} (coro : coroutine A) : M unit :=
  try_except_RuntimeError
    (bind get_running_loop (fun loop => create_task loop coro))
    (bind (asyncio_run coro) (fun _ => ret tt)).

(** The effects a coroutine performs when driven to its end, in order. *)
Fixpoint effects {A} (c : coroutine A) : list effect :=
match c with
| Return _ => []
| Throw _ => []
| Perform ev k => ev :: effects k
| Await k => effects k
end.

(** How a coroutine driven to its end finishes, its value dropped. *)
Fixpoint ending {A} (c : coroutine A) : outcome unit :=
match c with
| Return _ => Ok tt
| Throw e => Raise e
| Perform _ k => ending k
| Await k => ending k
end.

End Asyncio.

Arguments Return {effect A} a.
Arguments Throw {effect A} e.
Arguments Perform {effect A} ev k.
Arguments Await {effect A} k.
Arguments mkLoop {effect} tasks closed.
Arguments mkThread {effect} running loops performed.
Arguments tasks {effect} l.
Arguments closed {effect} l.
Arguments running {effect} t.
Arguments loops {effect} t.
Arguments performed {effect} t.
Arguments fire_and_forget {effect A} coro.
Arguments asyncio_run {effect A} coro.
Arguments run_until_complete {effect A} coro done.
Arguments effects {effect A} c.
Arguments ending {effect A} c.
Arguments forget {effect A} c.

End Functions.

(* ===================================================================== *)
(** * Concrete worlds for the examples *)
(* ===================================================================== *)

Module Fixtures.

Import Files.

Definition unavailable {A} (who : string) : exception + A :=
  inl (Foreign who "unavailable").

Definition gzip_exception (e : StoredGzip.error) : exception :=
match e with
| StoredGzip.BadGzipFile msg => Foreign "gzip.BadGzipFile" msg
| StoredGzip.EOFError msg => Foreign "EOFError" msg
| StoredGzip.ZlibError msg => Foreign "zlib.error" msg
end.

Definition stored_decompress (s : bytes) : exception + bytes :=
match StoredGzip.decompress s with
| inr data => inr data
| inl e => inl (gzip_exception e)
end.

(** A URL check that asks for an http or https scheme and no space. *)
Definition plain_url (url : string) : bool :=
  (String.prefix "http://" url || String.prefix "https://" url)
  && negb (existsb (Ascii.eqb " ") (list_ascii_of_string url)).

(** Collaborators with the store-only gzip codec, the given HTTP and S3
    services and importable modules, and nothing else reachable. *)
Definition collaborators (importable : string -> bool)
    (http : string -> exception + Response)
    (s3_head : string -> string -> exception + option string)
    (s3_get : string -> string -> exception + bytes) : Collaborators :=
  {| gzip_compress := StoredGzip.compress;
     gzip_decompress := stored_decompress;
     validators_url := plain_url;
     zip_members := fun _ => unavailable "zipfile";
     find_loader := importable;
     requests_get := http;
     s3_client := inr tt;
     s3_head_object := s3_head;
     s3_get_object := s3_get;
     azure_client := fun _ => unavailable "azure";
     azure_blob_properties := fun _ _ _ => unavailable "azure";
     azure_download_blob := fun _ _ _ => unavailable "azure";
     gcs_client := unavailable "gcs";
     gcs_reload := fun _ _ => unavailable "gcs";
     gcs_download := fun _ _ => unavailable "gcs";
     ftp_retrieve := fun _ _ _ _ => unavailable "ftplib" |}.

Definition offline : Collaborators :=
  collaborators (fun _ => false) (fun _ => unavailable "requests")
    (fun _ _ => unavailable "boto3") (fun _ _ => unavailable "boto3").

(** A machine with no object, no file and no network. *)
Definition bare : World := mkWorld [] ∅ [] 1700000000 [] offline.

(** A machine whose disk holds the text file [notes.txt], the directory
    [reports] and the file [data.bin]. *)
Definition desk : World :=
  mkWorld []
    (<["notes.txt" := File (lit "remember the milk")]>
       (<["reports" := Directory]>
          (<["data.bin" := File [x00; x01]]> ∅)))
    [] 1700000000 [] offline.

(** A machine holding one object, the text [Hello, World!]. *)
Definition hello : World :=
  mkWorld [mkRawFile (lit "Hello, World!") TXT] ∅ [] 1700000000 [] offline.

(** A server answering one URL with an XML document, one with plain text,
    and one whose path has a space in it with plain text too. *)
Definition xml_url : string := "https://example.com/feed".

Definition notes_url : string := "https://example.com/notes.txt".

Definition xml_response : Response :=
  mkResponse (lit "<feed/>") [("content-type", "application/xml; charset=utf-8")].

Definition spaced_url : string := "http://foo.bar/foo(bar)baz quux".

Definition text_response : Response :=
  mkResponse (lit "quux") [("Content-Type", "text/plain")].

(** A bucket holding [archive/feed.xml], reported as [application/xml]. *)
Definition online : World :=
  mkWorld [] ∅ [] 1700000000 []
    (collaborators (fun _ => true)
       (fun url =>
          if String.eqb url xml_url then inr xml_response
          else if String.eqb url notes_url then inr text_response
          else if String.eqb url spaced_url then inr text_response
          else unavailable "requests")
       (fun bucket key =>
          if String.eqb bucket "docs" && String.eqb key "archive/feed.xml"
          then inr (Some "application/xml")
          else unavailable "boto3")
       (fun bucket key =>
          if String.eqb bucket "docs" && String.eqb key "archive/feed.xml"
          then inr (lit "<feed/>")
          else unavailable "boto3")).

(** The coroutine that adds one to a counter and returns 42; the thread
    with no event loop and a counter at zero. *)
Definition increment : Functions.coroutine unit nat :=
  Functions.Perform tt (Functions.Await (Functions.Return 42%nat)).

Definition plain_thread : Functions.Thread unit := Functions.mkThread None [] [].

End Fixtures.

(* ===================================================================== *)
(** * base64 text as [b64decode] reads it *)
(* ===================================================================== *)

Module Base64Text.

Import Base64.

(** A character the decoder looks at: the pad or one of the alphabet. *)
Definition significant (c : byte) : bool :=
  Byte.eqb c BASE64_PAD || match a2b c with Some _ => true | None => false end.

(** [base64.b64encode(s).rstrip(b"=")]: the pads are all at the end. *)
Definition unpadded (s : bytes) : bytes :=
  List.filter (fun c => negb (Byte.eqb c BASE64_PAD)) (b64encode s).

End Base64Text.

(* ===================================================================== *)
(** * files.py: the constructors that read a stream *)
(* ===================================================================== *)

Module Streams.

Import Files.

(** A binary stream: its bytes and the position of the next read. *)
Record BinaryIO := mkBinaryIO { buffer : bytes; position : nat }.

(** [stream.read()]: what lies from the position to the end; the position
    moves to the end, unless it was already beyond. *)
Definition read (stream : BinaryIO) : bytes * BinaryIO :=
  (skipn (position stream) (buffer stream),
   mkBinaryIO (buffer stream) (Nat.max (position stream) (length (buffer stream)))).

(** [RawFile.from_stream(stream, extension)]: the new instance, and the
    stream as the call leaves it. *)
Definition from_stream (stream : BinaryIO) (extension : FileExtension)
    : M (loc * BinaryIO) :=
  let '(data, stream) := read stream in
  let* l := new (mkRawFile data extension) in
  ret (l, stream).

(** An uploaded file as the web framework hands it over: the content type
    the client declared and the stream of the body. *)
Record UploadFile := mkUploadFile {
  content_type : option string;
  file : BinaryIO
}.

(** [f"{x}"] for [x : Optional[str]]. *)
Definition format_optional (x : option string) : string := default "None" x.

(** [RawFile.from_litestar_upload_file(file)]. *)
Definition from_litestar_upload_file (file : UploadFile)
    : M (loc * BinaryIO) :=
  let* loader := gets (fun w => find_loader (env w) "litestar") in
  if negb loader then raise (ImportError (install_hint "Litestar" "litestar"))
  else
  let extension := _get_extension_from_content_type (content_type file) in
  match extension with
  | None =>
      raise (ValueError
        (format_optional (content_type file)
           ++ " is not a supported file type yet."))
  | Some extension =>
      let '(data, stream) := read (Streams.file file) in
      let* l := new (mkRawFile data extension) in
      ret (l, stream)
  end.

(** [RawFile.from_fastapi_upload_file(file)]. *)
Definition from_fastapi_upload_file (file : UploadFile)
    : M (loc * BinaryIO) :=
  let* loader := gets (fun w => find_loader (env w) "fastapi") in
  if negb loader then raise (ImportError (install_hint "FastAPI" "fastapi"))
  else
  match content_type file with
  | None => raise (ValueError "The content type of the file is missing.")
  | Some _ =>
      let extension := _get_extension_from_content_type (content_type file) in
      match extension with
      | None =>
          raise (ValueError
            (format_optional (content_type file)
               ++ " is not a supported file type yet."))
      | Some extension =>
          let '(data, stream) := read (Streams.file file) in
          let* l := new (mkRawFile data extension) in
          ret (l, stream)
      end
  end.

End Streams.

(* ===================================================================== *)
(** * More concrete worlds *)
(* ===================================================================== *)

Module Scenes.

Import Files.

(** [c not in s]. *)
Definition lacks (c : ascii) (s : string) : bool :=
  forallb (fun x => negb (Ascii.eqb x c)) (list_ascii_of_string s).

(** A bucket whose object [scans/Invoice.PDF] is served as a bare octet
    stream, whose object [inbox/7f3a] has no suffix and is reported as
    JSON, and whose object [inbox/page] is reported as HTML with a
    charset. *)
Definition bucket_head (bucket key : string) : exception + option string :=
  if String.eqb bucket "docs" && String.eqb key "scans/Invoice.PDF"
  then inr (Some "binary/octet-stream")
  else if String.eqb bucket "docs" && String.eqb key "inbox/7f3a"
  then inr (Some "application/json")
  else if String.eqb bucket "docs" && String.eqb key "inbox/page"
  then inr (Some "text/html; charset=utf-8")
  else Fixtures.unavailable "boto3".

Definition bucket_get (bucket key : string) : exception + bytes :=
  if String.eqb bucket "docs" && String.eqb key "scans/Invoice.PDF"
  then inr (lit "%PDF-1.7")
  else if String.eqb bucket "docs" && String.eqb key "inbox/7f3a"
  then inr (lit "{}")
  else if String.eqb bucket "docs" && String.eqb key "inbox/page"
  then inr (lit "<p>hi</p>")
  else Fixtures.unavailable "boto3".

(** A server answering one URL with HTML and a charset parameter. *)
Definition page_url : string := "https://example.com/index".

Definition page_response : Response :=
  mkResponse (lit "<p>hi</p>") [("content-type", "text/html; charset=utf-8")].

(** A machine with every optional package installed, that bucket and that
    server, and on its disk the scan [SCAN.PDF]. *)
Definition office : World :=
  mkWorld []
    (<["SCAN.PDF" := File (lit "%PDF-1.7")]> ∅)
    (lit "typed on the keyboard") 1700000000 []
    (Fixtures.collaborators (fun _ => true)
       (fun url =>
          if String.eqb url page_url then inr page_response
          else Fixtures.unavailable "requests")
       bucket_head bucket_get).

(** The collaborators [c] with a ZIP reader that knows one archive. *)
Definition with_archive (archive : bytes) (listing : list (string * bytes))
    (c : Collaborators) : Collaborators :=
  {| gzip_compress := gzip_compress c;
     gzip_decompress := gzip_decompress c;
     validators_url := validators_url c;
     zip_members := fun data =>
       if bytes_eq data archive then inr listing
       else inl (Foreign "zipfile.BadZipFile" "File is not a zip file");
     find_loader := find_loader c;
     requests_get := requests_get c;
     s3_client := s3_client c;
     s3_head_object := s3_head_object c;
     s3_get_object := s3_get_object c;
     azure_client := azure_client c;
     azure_blob_properties := azure_blob_properties c;
     azure_download_blob := azure_download_blob c;
     gcs_client := gcs_client c;
     gcs_reload := gcs_reload c;
     gcs_download := gcs_download c;
     ftp_retrieve := ftp_retrieve c |}.

(** A machine whose disk holds the archive [backup.zip], with the members
    [readme.txt] and [core.dump]. *)
Definition vault : World :=
  mkWorld []
    (<["backup.zip" := File (lit "PK")]> ∅)
    [] 1700000000 []
    (with_archive (lit "PK")
       [("readme.txt", lit "read me"); ("core.dump", [x00])]
       Fixtures.offline).

(** An upload declared as [text/plain; charset=utf-8]. *)
Definition upload : Streams.UploadFile :=
  Streams.mkUploadFile (Some "text/plain; charset=utf-8")
    (Streams.mkBinaryIO (lit "dear diary") 0).

(** A thread whose only loop is running with nothing queued. *)
Definition looping_thread : Functions.Thread unit :=
  Functions.mkThread (Some 0%nat) [Functions.mkLoop [] false] [].

End Scenes.

(* ===================================================================== *)
(** * Properties *)
(* ===================================================================== *)

(** ** Bytes *)

Lemma all_bytes_complete (b : byte) : existsb (Byte.eqb b) all_bytes = true.
Proof. destruct b; vm_compute; reflexivity. Qed.

Lemma forall_byte (P : byte -> bool) :
  forallb P all_bytes = true -> forall b, P b = true.
Proof.
  intros H b. rewrite forallb_forall in H. apply H.
  pose proof (all_bytes_complete b) as E.
  apply existsb_exists in E. destruct E as [c [Hin Hc]].
  apply Byte.byte_dec_bl in Hc. now subst.
Qed.

Lemma forall_byte2 (P : byte -> byte -> bool) :
  forallb (fun x => forallb (P x) all_bytes) all_bytes = true ->
  forall x y, P x y = true.
Proof.
  intros H x y.
  apply (forall_byte (P x)). apply (forall_byte (fun x => forallb (P x) all_bytes) H).
Qed.


Ltac byte_cases1 :=
  let x := fresh "x" in
  intros x;
  first [ apply N.ltb_lt | apply N.eqb_eq | apply Byte.byte_dec_bl ];
  revert x; apply forall_byte; vm_compute; reflexivity.

Ltac byte_cases2 :=
  let x := fresh "x" in
  let y := fresh "y" in
  intros x y;
  first [ apply N.ltb_lt | apply N.eqb_eq | apply Byte.byte_dec_bl ];
  revert x y; apply forall_byte2; vm_compute; reflexivity.

Lemma to_N_of_N n : Byte.to_N (of_N n) = n mod 256.
Proof.
  unfold of_N. destruct (Byte.of_N (n mod 256)) as [b|] eqn:E.
  - now apply Byte.to_of_N in E.
  - apply Byte.of_N_None_iff in E.
    pose proof (N.mod_upper_bound n 256). lia.
Qed.

Lemma length_le_bytes k n : length (le_bytes k n) = k.
Proof. revert n. induction k as [|k IH]; intros n; cbn; [|rewrite IH]; reflexivity. Qed.

Lemma le_word_le_bytes k n : le_word (le_bytes k n) = n mod 256 ^ N.of_nat k.
Proof.
  revert n. induction k as [|k IH]; intros n.
  - cbn. now rewrite N.mod_1_r.
  - cbn [le_bytes le_word]. rewrite IH, to_N_of_N, N.shiftr_div_pow2.
    change (2 ^ 8) with 256.
    rewrite Nat2N.inj_succ, N.pow_succ_r'.
    now rewrite N.Div0.mod_mul_r.
Qed.

Lemma le_word_le_bytes_small k n :
  n < 256 ^ N.of_nat k -> le_word (le_bytes k n) = n.
Proof. intros H. rewrite le_word_le_bytes. now apply N.mod_small. Qed.

(** ** base64: decoding undoes encoding *)

Section Base64Facts.

Import Base64.

Lemma sextet0_lt : forall x, N.shiftr (Byte.to_N x) 2 < 64.
Proof. byte_cases1. Qed.
Lemma sextet1_lt : forall x y,
  N.lor (N.shiftl (N.land (Byte.to_N x) 3) 4) (N.shiftr (Byte.to_N y) 4) < 64.
Proof. byte_cases2. Qed.
Lemma sextet3_lt : forall z, N.land (Byte.to_N z) 63 < 64.
Proof. byte_cases1. Qed.
Lemma sextet1_last_lt : forall x, N.shiftl (N.land (Byte.to_N x) 3) 4 < 64.
Proof. byte_cases1. Qed.
Lemma sextet2_last_lt : forall y, N.shiftl (N.land (Byte.to_N y) 15) 2 < 64.
Proof. byte_cases1. Qed.

Lemma b2a_a2b n : n < 64 ->
  Byte.eqb (b2a n) BASE64_PAD = false /\ a2b (b2a n) = Some n.
Proof.
  intros Hn.
  assert (Hall : forallb (fun k =>
            negb (Byte.eqb (b2a k) BASE64_PAD) &&
            match a2b (b2a k) with Some m => m =? k | None => false end)
          (map N.of_nat (seq 0 64)) = true) by (vm_compute; reflexivity).
  rewrite forallb_forall in Hall.
  specialize (Hall n).
  assert (Hin : In n (map N.of_nat (seq 0 64))).
  { apply in_map_iff. exists (N.to_nat n). split; [apply N2Nat.id|].
    apply in_seq. lia. }
  apply Hall in Hin. apply andb_true_iff in Hin. destruct Hin as [H1 H2].
  split.
  - now apply negb_true_iff in H1.
  - destruct (a2b (b2a n)) as [m|]; [|discriminate].
    apply N.eqb_eq in H2. now subst.
Qed.

Lemma a2b_loop_data n s q l p out : n < 64 ->
  a2b_loop (b2a n :: s) q l p out =
  match q with
  | 0%nat => a2b_loop s 1%nat n 0%nat out
  | 1%nat =>
      a2b_loop s 2%nat (N.land n 15) 0%nat
        (of_N (N.lor (N.shiftl l 2) (N.shiftr n 4)) :: out)
  | 2%nat =>
      a2b_loop s 3%nat (N.land n 3) 0%nat
        (of_N (N.lor (N.shiftl l 4) (N.shiftr n 2)) :: out)
  | _ =>
      a2b_loop s 0%nat 0 0%nat (of_N (N.lor (N.shiftl l 6) n) :: out)
  end.
Proof.
  intros Hn. destruct (b2a_a2b n Hn) as [Hpad Hval].
  simpl. rewrite Hpad, Hval. reflexivity.
Qed.

Lemma sextet2_lt : forall y z,
  N.lor (N.shiftl (N.land (Byte.to_N y) 15) 2) (N.shiftr (Byte.to_N z) 6) < 64.
Proof. byte_cases2. Qed.

(** First byte of a group from its first two characters. *)
Lemma join0 : forall x y,
  of_N (N.lor (N.shiftl (N.shiftr (Byte.to_N x) 2) 2)
          (N.shiftr (N.lor (N.shiftl (N.land (Byte.to_N x) 3) 4)
                       (N.shiftr (Byte.to_N y) 4)) 4)) = x.
Proof. byte_cases2. Qed.

Lemma left1 : forall x y,
  N.land (N.lor (N.shiftl (N.land (Byte.to_N x) 3) 4)
            (N.shiftr (Byte.to_N y) 4)) 15 = N.shiftr (Byte.to_N y) 4.
Proof. byte_cases2. Qed.

Lemma join1 : forall y z,
  of_N (N.lor (N.shiftl (N.shiftr (Byte.to_N y) 4) 4)
          (N.shiftr (N.lor (N.shiftl (N.land (Byte.to_N y) 15) 2)
                       (N.shiftr (Byte.to_N z) 6)) 2)) = y.
Proof. byte_cases2. Qed.

Lemma left2 : forall y z,
  N.land (N.lor (N.shiftl (N.land (Byte.to_N y) 15) 2)
            (N.shiftr (Byte.to_N z) 6)) 3 = N.shiftr (Byte.to_N z) 6.
Proof. byte_cases2. Qed.

Lemma join2 : forall z,
  of_N (N.lor (N.shiftl (N.shiftr (Byte.to_N z) 6) 6)
          (N.land (Byte.to_N z) 63)) = z.
Proof. byte_cases1. Qed.

Lemma join0_last : forall x,
  of_N (N.lor (N.shiftl (N.shiftr (Byte.to_N x) 2) 2)
          (N.shiftr (N.shiftl (N.land (Byte.to_N x) 3) 4) 4)) = x.
Proof. byte_cases1. Qed.

Lemma join1_last : forall y,
  of_N (N.lor (N.shiftl (N.shiftr (Byte.to_N y) 4) 4)
          (N.shiftr (N.shiftl (N.land (Byte.to_N y) 15) 2) 2)) = y.
Proof. byte_cases1. Qed.

Lemma a2b_loop_group x y z s out :
  a2b_loop (encode_group x y z ++ s) 0%nat 0 0%nat out =
  a2b_loop s 0%nat 0 0%nat (z :: y :: x :: out).
Proof.
  unfold encode_group. cbn [app].
  rewrite a2b_loop_data by apply sextet0_lt.
  rewrite a2b_loop_data by apply sextet1_lt.
  rewrite a2b_loop_data by apply sextet2_lt.
  rewrite a2b_loop_data by apply sextet3_lt.
  rewrite join0, left1, join1, left2, join2. reflexivity.
Qed.

Lemma list_ind3 {A} (P : list A -> Prop) :
  P [] -> (forall x, P [x]) -> (forall x y, P [x; y]) ->
  (forall x y z l, P l -> P (x :: y :: z :: l)) ->
  forall l, P l.
Proof.
  intros H0 H1 H2 H3.
  fix IH 1. intros [|x [|y [|z l]]];
    [ apply H0 | apply H1 | apply H2 | apply H3, IH ].
Qed.

Lemma a2b_loop_b64encode s : forall out,
  a2b_loop (b64encode s) 0%nat 0 0%nat out = inr (rev out ++ s).
Proof.
  induction s as [|x|x y|x y z s IH] using list_ind3; intros out.
  - simpl. now rewrite app_nil_r.
  - cbn [b64encode].
    rewrite a2b_loop_data by apply sextet0_lt.
    rewrite a2b_loop_data by apply sextet1_last_lt.
    rewrite join0_last. reflexivity.
  - cbn [b64encode].
    rewrite a2b_loop_data by apply sextet0_lt.
    rewrite a2b_loop_data by apply sextet1_lt.
    rewrite a2b_loop_data by apply sextet2_last_lt.
    rewrite join0, left1, join1_last. cbn. now rewrite <- !app_assoc.
  - cbn [b64encode]. rewrite a2b_loop_group, IH. cbn.
    now rewrite <- !app_assoc.
Qed.

(** Decoding the standard encoding of [s] gives [s] back. *)
Lemma a2b_base64_b64encode s : a2b_base64 (b64encode s) = inr s.
Proof. unfold a2b_base64. now rewrite a2b_loop_b64encode. Qed.

End Base64Facts.

(** ** The store-only gzip codec: decompression undoes compression *)

Section StoredGzipFacts.

Import StoredGzip.

Lemma stored_block_inflate final data tail fuel acc :
  N.of_nat (length data) <= max_stored ->
  inflate_stored (S fuel) (stored_block final data ++ tail) acc =
  if final then inr (concat (rev (data :: acc)), tail)
  else inflate_stored fuel tail (data :: acc).
Proof.
  intros Hlen. unfold stored_block.
  set (len := N.of_nat (length data)) in *.
  cbn [app le_bytes inflate_stored].
  change [of_N len; of_N (N.shiftr len 8)] with (le_bytes 2 len).
  change [of_N (max_stored - len); of_N (N.shiftr (max_stored - len) 8)]
    with (le_bytes 2 (max_stored - len)).
  unfold max_stored in *.
  rewrite !le_word_le_bytes_small by (change (256 ^ N.of_nat 2) with 65536; lia).
  replace (len + (65535 - len) =? 65535) with true
    by (symmetry; apply N.eqb_eq; lia).
  assert (Hn : N.to_nat len = length data) by (unfold len; apply Nat2N.id).
  rewrite Hn, length_app.
  replace (length data + length tail <? length data)%nat with false
    by (symmetry; apply Nat.ltb_ge; lia).
  rewrite take_app_length, drop_app_length.
  destruct final; reflexivity.
Qed.

Lemma concat_rev_cons {A} (d : list A) acc :
  concat (rev (d :: acc)) = concat (rev acc) ++ d.
Proof. cbn [rev]. rewrite concat_app. cbn [concat]. now rewrite app_nil_r. Qed.

Lemma inflate_stored_blocks size :
  1 <= size -> size <= max_stored ->
  forall fuel data tail fuel' acc,
  (length data <= fuel)%nat -> (fuel < fuel')%nat ->
  inflate_stored fuel' (stored_blocks fuel size data ++ tail) acc =
  inr (concat (rev acc) ++ data, tail).
Proof.
  intros Hpos Hmax. induction fuel as [|fuel IH]; intros data tail fuel' acc Hd Hf.
  - destruct data; [|cbn in Hd; lia].
    destruct fuel' as [|fuel']; [lia|].
    cbn [stored_blocks].
    assert (Hnil : N.of_nat (length (@nil byte)) <= max_stored)
      by (unfold max_stored; cbn [length]; lia).
    rewrite stored_block_inflate by exact Hnil.
    now rewrite concat_rev_cons.
  - destruct fuel' as [|fuel']; [lia|].
    cbn [stored_blocks].
    destruct (length data <=? N.to_nat size)%nat eqn:E.
    + apply Nat.leb_le in E.
      rewrite stored_block_inflate by lia.
      now rewrite concat_rev_cons.
    + apply Nat.leb_gt in E.
      rewrite <- app_assoc.
      rewrite stored_block_inflate
        by (rewrite length_firstn; lia).
      rewrite IH.
      * rewrite concat_rev_cons, <- app_assoc. now rewrite firstn_skipn.
      * rewrite length_skipn. lia.
      * lia.
Qed.

Lemma length_stored_block final data :
  length (stored_block final data) = (length data + 5)%nat.
Proof.
  unfold stored_block. cbn [length]. rewrite !length_app, !length_le_bytes. lia.
Qed.

Lemma length_stored_blocks fuel size data :
  (length data + 5 <= length (stored_blocks fuel size data))%nat.
Proof.
  revert data. induction fuel as [|fuel IH]; intros data; cbn [stored_blocks].
  - rewrite length_stored_block. lia.
  - destruct (length data <=? N.to_nat size)%nat eqn:E.
    + rewrite length_stored_block. lia.
    + apply Nat.leb_gt in E. specialize (IH (skipn (N.to_nat size) data)).
      rewrite length_app, length_stored_block, length_firstn.
      rewrite length_skipn in IH. lia.
Qed.

Lemma crc32_bound data : crc32 data < 2 ^ 32.
Proof.
  unfold crc32. change 0xffffffff with (N.ones 32) at 3.
  rewrite N.land_ones. apply N.mod_upper_bound. discriminate.
Qed.

(** The store-only codec honours the gzip contract. *)
Lemma decompress_compress mtime data :
  decompress (compress mtime data) = inr data.
Proof.
  unfold compress, header.
  cbn [app le_bytes decompress Byte.eqb andb negb].
  rewrite (inflate_stored_blocks max_stored).
  - unfold trailer. cbn [le_bytes app rev concat].
    set (c := crc32 data). set (n := N.land (N.of_nat (length data)) 0xffffffff).
    change [of_N c; of_N (N.shiftr c 8); of_N (N.shiftr (N.shiftr c 8) 8);
            of_N (N.shiftr (N.shiftr (N.shiftr c 8) 8) 8)] with (le_bytes 4 c).
    change [of_N n; of_N (N.shiftr n 8); of_N (N.shiftr (N.shiftr n 8) 8);
            of_N (N.shiftr (N.shiftr (N.shiftr n 8) 8) 8)] with (le_bytes 4 n).
    rewrite !le_word_le_bytes_small.
    + rewrite !N.eqb_refl. reflexivity.
    + unfold n. change 0xffffffff with (N.ones 32). rewrite N.land_ones.
      apply N.mod_upper_bound. discriminate.
    + apply crc32_bound.
  - unfold max_stored. lia.
  - lia.
  - lia.
  - rewrite length_app.
    pose proof (length_stored_blocks (length data) max_stored data). lia.
Qed.

End StoredGzipFacts.

(** ** RawFile *)

Import Files.

(** ** The heap *)

Lemma lookup_new (h : list RawFile) f : (h ++ [f]) !! length h = Some f.
Proof. now apply list_lookup_middle. Qed.

Lemma lookup_kept (h : list RawFile) f l g :
  h !! l = Some g -> (h ++ [f]) !! l = Some g.
Proof. intros H. rewrite lookup_app_l; [exact H|]. now apply lookup_lt_Some in H. Qed.

Lemma lookup_fresh (h : list RawFile) : h !! length h = None.
Proof. now apply lookup_ge_None. Qed.

Lemma deref_spec self w f : heap w !! self = Some f -> deref self w = (Ok f, w).
Proof. intros H. unfold deref. now rewrite H. Qed.

(** ** Objects are never written: the heap only grows *)

Definition grows {A} (m : M A) : Prop :=
  forall w, exists more, heap (m w).2 = heap w ++ more.

Lemma grows_ret {A} (a : A) : grows (ret a).
Proof. intros w. exists []. cbn. now rewrite app_nil_r. Qed.

Lemma grows_raise {A} e : grows (@raise A e).
Proof. intros w. exists []. cbn. now rewrite app_nil_r. Qed.

Lemma grows_gets {A} (f : World -> A) : grows (gets f).
Proof. intros w. exists []. cbn. now rewrite app_nil_r. Qed.

Lemma grows_modify f : (forall w, heap (f w) = heap w) -> grows (modify f).
Proof. intros H w. exists []. cbn. now rewrite H, app_nil_r. Qed.

Lemma grows_call {A} (f : Collaborators -> exception + A) : grows (call f).
Proof.
  intros w. exists []. unfold call.
  destruct (f (env w)); cbn; now rewrite app_nil_r.
Qed.

Lemma grows_new f : grows (new f).
Proof. intros w. now exists [f]. Qed.

Lemma grows_deref self : grows (deref self).
Proof.
  intros w. exists []. unfold deref.
  destruct (heap w !! self); cbn; now rewrite app_nil_r.
Qed.

Lemma grows_read_binary p : grows (read_binary p).
Proof.
  intros w. exists []. unfold read_binary.
  destruct (fs w !! p) as [[]|]; cbn; now rewrite app_nil_r.
Qed.

Lemma grows_write_binary p data : grows (write_binary p data).
Proof.
  intros w. exists []. unfold write_binary.
  destruct (fs w !! p) as [[]|]; cbn; now rewrite app_nil_r.
Qed.

Lemma grows_bind {A B} (m : M A) (k : A -> M B) :
  grows m -> (forall a, grows (k a)) -> grows (bind m k).
Proof.
  intros Hm Hk w. unfold bind.
  destruct (Hm w) as [more1 H1].
  destruct (m w) as [[a|e] w1]; cbn in H1.
  - destruct (Hk a w1) as [more2 H2].
    exists (more1 ++ more2). now rewrite H2, H1, app_assoc.
  - now exists more1.
Qed.

Create HintDb grows.
#[local] Hint Resolve grows_ret grows_raise grows_gets grows_call grows_new
  grows_deref grows_read_binary grows_write_binary : grows.

Ltac grows_step :=
  match goal with
  | |- grows (bind _ _) => apply grows_bind; [|intros ?]
  | |- grows (modify _) => apply grows_modify; intros ?; reflexivity
  | |- grows (if ?b then _ else _) => destruct b
  | |- grows (match ?x with _ => _ end) => destruct x
  | |- grows _ => solve [auto with grows]
  end.

Ltac solve_grows := repeat grows_step.

Lemma grows_perform op self : grows (perform op self).
Proof.
  destruct op; unfold perform, save_to_file, get_size, compute_md5,
    compute_sha256, get_mime_type, compress, decompress, read_async,
    __enter__, __exit__, __setattr__; solve_grows.
Qed.

(** The constructors too only add objects. *)
Lemma grows_from_file_path p : grows (from_file_path p).
Proof. unfold from_file_path, path_exists, path_is_file, FileExtension_call. solve_grows. Qed.

Lemma grows_acquire s e : grows (acquire s e).
Proof.
  destruct s; unfold acquire, from_url, from_s3, from_azure_blob, from_gcs,
    from_zip, from_ftp, FileExtension_call; solve_grows.
Qed.

(** Every operation leaves each object of the heap as it was. *)
Lemma perform_keeps_objects op self w l g :
  heap w !! l = Some g -> heap (perform op self w).2 !! l = Some g.
Proof.
  intros Hl. destruct (grows_perform op self w) as [more ->].
  rewrite lookup_app_l; [exact Hl|]. now apply lookup_lt_Some in Hl.
Qed.

Lemma fresh_is_not (h : list RawFile) self f :
  h !! self = Some f -> length h <> self.
Proof. intros H E. subst self. rewrite lookup_fresh in H. discriminate. Qed.

(** ** What each step computes *)

Lemma bind_ok {A B} (m : M A) (k : A -> M B) w a w1 :
  m w = (Ok a, w1) -> bind m k w = k a w1.
Proof. intros H. unfold bind. now rewrite H. Qed.

Lemma compress_spec self w f :
  heap w !! self = Some f ->
  compress self w =
  (Ok (length (heap w)),
   set_heap
     (heap w ++ [mkRawFile (gzip_compress (env w) (clock w) (contents f))
                   (extension f)]) w).
Proof.
  intros H. unfold compress.
  rewrite (bind_ok _ _ _ _ _ (deref_spec _ _ _ H)). reflexivity.
Qed.

Lemma decompress_spec self w f :
  heap w !! self = Some f ->
  decompress self w =
  match gzip_decompress (env w) (contents f) with
  | inr data =>
      (Ok (length (heap w)),
       set_heap (heap w ++ [mkRawFile data (extension f)]) w)
  | inl e => (Raise e, w)
  end.
Proof.
  intros H. unfold decompress.
  rewrite (bind_ok _ _ _ _ _ (deref_spec _ _ _ H)).
  unfold bind, call. now destruct (gzip_decompress (env w) (contents f)).
Qed.

(** C1.  No public operation changes an instance: whatever operation
    [op] of the interface is performed on [self] (saving, size, digests,
    MIME type, compression, decompression, reading, the scoped-use hooks,
    an attempted field assignment), [self] holds the same contents and
    extension afterwards.  [compress] returns a new instance, distinct from
    [self], holding the compressed bytes and the same extension; what
    [decompress] returns, when it returns, is likewise a new instance
    holding the decompressed bytes and the same extension. *)
Theorem operations_leave_self_unchanged
    (op : operation) (self : loc) (w : World) (f : RawFile) :
  heap w !! self = Some f ->
  heap (perform op self w).2 !! self = Some f
  /\ (op = Compress ->
      exists l,
        (perform op self w).1 = Ok (RObject l) /\ l <> self
        /\ heap (perform op self w).2 !! l =
           Some (mkRawFile (gzip_compress (env w) (clock w) (contents f))
                   (extension f)))
  /\ (op = Decompress ->
      forall l,
        (perform op self w).1 = Ok (RObject l) ->
        l <> self
        /\ exists data,
             gzip_decompress (env w) (contents f) = inr data
             /\ heap (perform op self w).2 !! l =
                Some (mkRawFile data (extension f))).
Proof.
  intros Hself. split; [now apply perform_keeps_objects|]. split.
  - intros ->. exists (length (heap w)).
    cbn [perform]. rewrite (bind_ok _ _ _ _ _ (compress_spec _ _ _ Hself)).
    cbn. split; [reflexivity|]. split; [now apply fresh_is_not with f|].
    apply lookup_new.
  - intros -> l.
    assert (Hp : perform Decompress self w =
                 match gzip_decompress (env w) (contents f) with
                 | inr data =>
                     (Ok (RObject (length (heap w))),
                      set_heap (heap w ++ [mkRawFile data (extension f)]) w)
                 | inl e => (Raise e, w)
                 end).
    { cbn [perform]. unfold bind at 1. rewrite (decompress_spec _ _ _ Hself).
      now destruct (gzip_decompress (env w) (contents f)). }
    rewrite Hp.
    destruct (gzip_decompress (env w) (contents f)) as [e|data]; cbn;
      [discriminate|].
    intros [= <-]. split; [now apply fresh_is_not with f|].
    exists data. split; [reflexivity|]. apply lookup_new.
Qed.

(** C1 at the object holding [Hello, World!]: still the same after
    [compress]. *)
Lemma operations_leave_self_unchanged_example :
  heap Fixtures.hello !! 0%nat = Some (mkRawFile (lit "Hello, World!") TXT)
  /\ heap (perform Compress 0%nat Fixtures.hello).2 !! 0%nat
     = Some (mkRawFile (lit "Hello, World!") TXT).
Proof.
  split; [reflexivity|].
  apply (operations_leave_self_unchanged Compress 0%nat Fixtures.hello).
  reflexivity.
Defined.

(** C2.  For every byte sequence [b] and tag [t],
    [from_bytes(b, t).compress().decompress()] returns an instance whose
    contents are [b] and whose extension is [t], given that the gzip
    collaborator decompresses what it compresses. *)
Theorem compress_then_decompress (w : World) (b : bytes) (t : FileExtension) :
  gzip_round_trip (env w) ->
  exists l w',
    (let* f := from_bytes b t in
     let* c := compress f in
     decompress c) w = (Ok l, w')
    /\ heap w' !! l = Some (mkRawFile b t).
Proof.
  intros Hgzip.
  set (w1 := set_heap (heap w ++ [mkRawFile b t]) w).
  assert (H1 : from_bytes b t w = (Ok (length (heap w)), w1)) by reflexivity.
  assert (Hf : heap w1 !! length (heap w) = Some (mkRawFile b t))
    by apply lookup_new.
  pose proof (compress_spec _ _ _ Hf) as H2. cbn [contents extension] in H2.
  set (z := gzip_compress (env w1) (clock w1) b) in H2.
  set (w2 := set_heap (heap w1 ++ [mkRawFile z t]) w1) in H2.
  assert (Hc : heap w2 !! length (heap w1) = Some (mkRawFile z t))
    by apply lookup_new.
  pose proof (decompress_spec _ _ _ Hc) as H3. cbn [contents extension] in H3.
  unfold z in H3 at 1. change (env w2) with (env w1) in H3.
  rewrite Hgzip in H3.
  exists (length (heap w2)), (set_heap (heap w2 ++ [mkRawFile b t]) w2).
  split.
  - rewrite (bind_ok _ _ _ _ _ H1), (bind_ok _ _ _ _ _ H2). exact H3.
  - apply lookup_new.
Qed.

(** The collaborators of the examples meet the gzip contract. *)
Lemma stored_gzip_round_trip : gzip_round_trip Fixtures.offline.
Proof.
  intros mtime data.
  change (Fixtures.stored_decompress (StoredGzip.compress mtime data) = inr data).
  unfold Fixtures.stored_decompress. now rewrite decompress_compress.
Qed.

(** C2 at [Hello, World!] with the store-only codec. *)
Lemma compress_then_decompress_example :
  exists l w',
    (let* f := from_bytes (lit "Hello, World!") TXT in
     let* c := compress f in
     decompress c) Fixtures.bare = (Ok l, w')
    /\ heap w' !! l = Some (mkRawFile (lit "Hello, World!") TXT).
Proof.
  exact (compress_then_decompress Fixtures.bare (lit "Hello, World!") TXT
           stored_gzip_round_trip).
Defined.

(** C3.  [f = from_bytes(b"Hello, World!", TXT)] has [f.get_size() == 13],
    [f.compute_md5()] equal to [65a8e27d8879283831b664bd8b7f0ad4], the MD5
    of these bytes, and [f.get_mime_type() == "text/plain"]. *)
Theorem hello_world_scenario (w : World) :
  exists f w',
    from_bytes (lit "Hello, World!") TXT w = (Ok f, w')
    /\ get_size f w' = (Ok 13%nat, w')
    /\ compute_md5 f w' = (Ok "65a8e27d8879283831b664bd8b7f0ad4", w')
    /\ get_mime_type f w' = (Ok "text/plain", w').
Proof.
  set (hello := mkRawFile (lit "Hello, World!") TXT).
  exists (length (heap w)), (set_heap (heap w ++ [hello]) w).
  assert (Hf : deref (length (heap w)) (set_heap (heap w ++ [hello]) w)
               = (Ok hello, set_heap (heap w ++ [hello]) w)).
  { apply deref_spec. apply lookup_new. }
  split; [reflexivity|].
  unfold get_size, compute_md5, get_mime_type.
  rewrite !(bind_ok _ _ _ _ _ Hf).
  repeat split; unfold ret; f_equal; vm_compute; reflexivity.
Qed.

(** ** base64 text *)

Lemma b2a_is_ascii n : Byte.to_N (Base64.b2a n) < 128.
Proof.
  unfold Base64.b2a.
  assert (H : forallb (fun c => Byte.to_N c <? 128) Base64.table_b2a_base64 = true)
    by (vm_compute; reflexivity).
  rewrite forallb_forall in H.
  destruct (nth_in_or_default (N.to_nat n) Base64.table_b2a_base64 Base64.BASE64_PAD)
    as [Hin | ->].
  - apply N.ltb_lt. now apply H.
  - vm_compute. reflexivity.
Qed.

Lemma b64encode_is_ascii s :
  Forall (fun c => Byte.to_N c < 128) (Base64.b64encode s).
Proof.
  induction s as [|x|x y|x y z s IH] using list_ind3; cbn [Base64.b64encode].
  - constructor.
  - repeat constructor; try apply b2a_is_ascii; vm_compute; reflexivity.
  - repeat constructor; try apply b2a_is_ascii; vm_compute; reflexivity.
  - unfold Base64.encode_group. cbn [app].
    repeat (constructor; [apply b2a_is_ascii|]). exact IH.
Qed.

Lemma N_of_ascii_of_byte c : N_of_ascii (ascii_of_byte c) = Byte.to_N c.
Proof.
  rewrite ascii_of_byte_via_N. apply N_ascii_embedding.
  pose proof (Byte.to_N_bounded c). lia.
Qed.

Lemma ascii_text_check (s : bytes) :
  Forall (fun c => Byte.to_N c < 128) s ->
  forallb (fun c => N_of_ascii c <? 128)
    (list_ascii_of_string (string_of_list_byte s)) = true.
Proof.
  unfold string_of_list_byte.
  induction 1 as [|c s Hc _ IH]; [reflexivity|].
  cbn [map string_of_list_ascii list_ascii_of_string forallb].
  rewrite N_of_ascii_of_byte, IH.
  apply N.ltb_lt in Hc. now rewrite Hc.
Qed.

Lemma b64decode_b64encode (b : bytes) w :
  b64decode (string_of_list_byte (Base64.b64encode b)) w = (Ok b, w).
Proof.
  unfold b64decode.
  rewrite ascii_text_check by apply b64encode_is_ascii.
  rewrite list_byte_of_string_of_list_byte, a2b_base64_b64encode.
  reflexivity.
Qed.

Lemma bytes_eq_refl (b : bytes) : bytes_eq b b = true.
Proof.
  induction b as [|x b IH]; [reflexivity|].
  cbn. now rewrite IH, (Byte.byte_dec_lb (eq_refl x)).
Qed.

(** C10.  For every byte sequence [b] and tag [t], [from_base64] applied to
    the standard base64 encoding of [b] does what [from_bytes(b, t)] does,
    and the two instances are equal field by field:
    [from_base64(b64encode(b), t) == from_bytes(b, t)] is [True]. *)
Theorem from_base64_of_encoding (w : World) (b : bytes) (t : FileExtension) :
  from_base64 (string_of_list_byte (Base64.b64encode b)) t w = from_bytes b t w
  /\ exists w',
       (let* x := from_base64 (string_of_list_byte (Base64.b64encode b)) t in
        let* y := from_bytes b t in
        __eq__ x y) w = (Ok true, w').
Proof.
  assert (H : from_base64 (string_of_list_byte (Base64.b64encode b)) t w
              = from_bytes b t w).
  { unfold from_base64. now rewrite (bind_ok _ _ _ _ _ (b64decode_b64encode b w)). }
  split; [exact H|].
  set (f := mkRawFile b t).
  set (w1 := set_heap (heap w ++ [f]) w).
  set (w2 := set_heap (heap w1 ++ [f]) w1).
  exists w2.
  assert (H1 : from_bytes b t w = (Ok (length (heap w)), w1)) by reflexivity.
  assert (H2 : from_bytes b t w1 = (Ok (length (heap w1)), w2)) by reflexivity.
  rewrite (bind_ok _ _ _ _ _ (eq_trans H H1)), (bind_ok _ _ _ _ _ H2).
  unfold __eq__.
  assert (Hx : deref (length (heap w)) w2 = (Ok f, w2)).
  { apply deref_spec. apply lookup_kept. apply lookup_new. }
  assert (Hy : deref (length (heap w1)) w2 = (Ok f, w2)).
  { apply deref_spec. apply lookup_new. }
  rewrite (bind_ok _ _ _ _ _ Hx), (bind_ok _ _ _ _ _ Hy).
  unfold ret. now rewrite bytes_eq_refl, String.eqb_refl.
Qed.

(** ** Local paths *)

Lemma from_file_path_missing w file_path :
  fs w !! file_path = None ->
  from_file_path file_path w =
  (Raise (FileNotFoundError ("File not found at " ++ file_path)), w).
Proof.
  intros H. unfold from_file_path.
  rewrite (bind_ok _ _ w false w) by (unfold path_exists, gets; now rewrite H).
  reflexivity.
Qed.

Lemma from_file_path_directory w file_path :
  fs w !! file_path = Some Directory ->
  from_file_path file_path w =
  (Raise (ValueError (file_path ++ " is not a file")), w).
Proof.
  intros H. unfold from_file_path.
  rewrite (bind_ok _ _ w true w) by (unfold path_exists, gets; now rewrite H).
  cbn [negb].
  rewrite (bind_ok _ _ w false w) by (unfold path_is_file, gets; now rewrite H).
  reflexivity.
Qed.

Lemma from_file_path_file w file_path data :
  fs w !! file_path = Some (File data) ->
  from_file_path file_path w =
  match by_value (suffix_of file_path) with
  | Some e =>
      (Ok (length (heap w)), set_heap (heap w ++ [mkRawFile data e]) w)
  | None =>
      (Raise (ValueError
         ("'" ++ suffix_of file_path ++ "' is not a valid FileExtension")), w)
  end.
Proof.
  intros H. unfold from_file_path.
  rewrite (bind_ok _ _ w true w) by (unfold path_exists, gets; now rewrite H).
  cbn [negb].
  rewrite (bind_ok _ _ w true w) by (unfold path_is_file, gets; now rewrite H).
  cbn [negb].
  rewrite (bind_ok _ _ w data w) by (unfold read_binary; now rewrite H).
  unfold FileExtension_call, bind.
  now destruct (by_value (suffix_of file_path)).
Qed.

(** C6.  [from_file_path] raises [FileNotFoundError] (the spec's
    NotFoundError) and returns nothing when the path does not exist; it
    raises [ValueError] saying the path is not a file (InvalidArgumentError)
    when the path is a directory; and it raises the [ValueError] of
    [FileExtension(...)] (TypeResolutionError) when the path is a file whose
    suffix is the value of no member.  The world is left as it was. *)
Theorem from_file_path_failures (w : World) (file_path : string) :
  (fs w !! file_path = None ->
   from_file_path file_path w =
   (Raise (FileNotFoundError ("File not found at " ++ file_path)), w))
  /\ (fs w !! file_path = Some Directory ->
      from_file_path file_path w =
      (Raise (ValueError (file_path ++ " is not a file")), w))
  /\ (forall data,
      fs w !! file_path = Some (File data) ->
      by_value (suffix_of file_path) = None ->
      from_file_path file_path w =
      (Raise (ValueError
         ("'" ++ suffix_of file_path ++ "' is not a valid FileExtension")), w)).
Proof.
  split; [apply from_file_path_missing|].
  split; [apply from_file_path_directory|].
  intros data Hfile Hext. rewrite (from_file_path_file _ _ _ Hfile).
  now rewrite Hext.
Qed.

(** C6 on a disk holding [notes.txt], the directory [reports] and
    [data.bin]. *)
Lemma from_file_path_failures_example :
  from_file_path "example.pdf" Fixtures.desk =
    (Raise (FileNotFoundError "File not found at example.pdf"), Fixtures.desk)
  /\ from_file_path "reports" Fixtures.desk =
    (Raise (ValueError "reports is not a file"), Fixtures.desk)
  /\ from_file_path "data.bin" Fixtures.desk =
    (Raise (ValueError "'bin' is not a valid FileExtension"), Fixtures.desk).
Proof.
  split; [|split].
  - apply (proj1 (from_file_path_failures Fixtures.desk "example.pdf")).
    vm_compute. reflexivity.
  - apply (proj1 (proj2 (from_file_path_failures Fixtures.desk "reports"))).
    vm_compute. reflexivity.
  - apply (proj2 (proj2 (from_file_path_failures Fixtures.desk "data.bin"))
             [x00; x01]); vm_compute; reflexivity.
Defined.

(** ** Tags *)

Lemma truthy_Some t : truthy (Some t) = true.
Proof. now destruct t. Qed.

Lemma or_else_Some t y : or_else (Some t) y = t.
Proof. now destruct t. Qed.

(** ** URLs *)

(** What [from_url] returns once the server has answered. *)
Lemma from_url_answered w url extension response :
  requests_get (env w) url = inr response ->
  from_url url extension w =
  let w1 := set_requests_log (url :: requests_log w) w in
  (Ok (length (heap w)),
   set_heap
     (heap w ++
      [mkRawFile (content response)
         (or_else extension
            (or_else
               (_get_extension_from_content_type
                  (Some (declared_content_type response)))
               HTML))]) w1).
Proof.
  intros H. unfold from_url, bind, gets, modify, call. cbn.
  rewrite H. reflexivity.
Qed.

Lemma from_url_failed w url extension e :
  requests_get (env w) url = inl e ->
  from_url url extension w =
  (Raise e, set_requests_log (url :: requests_log w) w).
Proof.
  intros H. unfold from_url, bind, gets, modify, call. cbn.
  rewrite H. reflexivity.
Qed.

(** C7 does not hold of the code: a URL that [validators.url] rejects is
    requested all the same.  Whenever the server answers, [from_url]
    returns an instance holding the response body, and the URL has been
    passed to [requests.get]. *)
Theorem from_url_requests_rejected_url
    (w : World) (url : string) (extension : option FileExtension)
    (response : Response) :
  validators_url (env w) url = false ->
  requests_get (env w) url = inr response ->
  exists l w',
    from_url url extension w = (Ok l, w')
    /\ requests_log w' = url :: requests_log w
    /\ contents <$> heap w' !! l = Some (content response).
Proof.
  intros _ Hget. rewrite (from_url_answered _ _ _ _ Hget).
  eexists _, _. split; [reflexivity|]. split; [reflexivity|].
  cbn. now rewrite lookup_new.
Qed.

(** C7 at a URL with a space in its path: rejected by the check,
    requested, and turned into an instance. *)
Lemma from_url_requests_spaced_url :
  validators_url (env Fixtures.online) Fixtures.spaced_url = false
  /\ exists l w',
       from_url Fixtures.spaced_url None Fixtures.online = (Ok l, w')
       /\ requests_log w' = [Fixtures.spaced_url]
       /\ contents <$> heap w' !! l = Some (lit "quux").
Proof.
  split; [reflexivity|].
  apply (from_url_requests_rejected_url Fixtures.online Fixtures.spaced_url
           None Fixtures.text_response); reflexivity.
Defined.

(** ** Buckets *)

Lemma from_s3_unresolved w bucket_name object_key reported :
  find_loader (env w) "boto3" = true ->
  s3_client (env w) = inr tt ->
  by_name (Str.upper (suffix_of object_key)) = None ->
  s3_head_object (env w) bucket_name object_key = inr reported ->
  _get_extension_from_content_type (Some (default "" reported)) = None ->
  from_s3 bucket_name object_key None w = (Raise (ValueError undetermined), w).
Proof.
  intros Hloader Hclient Hname Hhead Htype. unfold from_s3.
  rewrite (bind_ok _ _ w true w) by (unfold gets; now rewrite Hloader).
  cbn [negb].
  rewrite (bind_ok _ _ w tt w) by (unfold call; now rewrite Hclient).
  cbn [negb truthy]. rewrite Hname.
  rewrite (bind_ok _ _ w None w); [reflexivity|].
  rewrite (bind_ok _ _ w reported w) by (unfold call; now rewrite Hhead).
  unfold ret. now rewrite Htype.
Qed.

(** C5.  With no explicit tag: when the response to [url] declares a
    content type that is not mapped, [from_url] returns an instance tagged
    HTML; when the suffix of [object_key] names no member and the content
    type S3 reports is not mapped, [from_s3] raises the [ValueError] that
    asks for an explicit extension (the spec's TypeResolutionError) and
    returns nothing. *)
Theorem unresolved_tag_asymmetry
    (w : World) (url bucket_name object_key : string)
    (response : Response) (reported : option string) :
  requests_get (env w) url = inr response ->
  _get_extension_from_content_type (Some (declared_content_type response))
    = None ->
  find_loader (env w) "boto3" = true ->
  s3_client (env w) = inr tt ->
  by_name (Str.upper (suffix_of object_key)) = None ->
  s3_head_object (env w) bucket_name object_key = inr reported ->
  _get_extension_from_content_type (Some (default "" reported)) = None ->
  (exists l w',
     from_url url None w = (Ok l, w')
     /\ heap w' !! l = Some (mkRawFile (content response) HTML))
  /\ from_s3 bucket_name object_key None w
     = (Raise (ValueError undetermined), w).
Proof.
  intros Hget Hdeclared Hloader Hclient Hname Hhead Hreported. split.
  - rewrite (from_url_answered _ _ _ _ Hget). rewrite Hdeclared.
    eexists _, _. split; [reflexivity|]. cbn. apply lookup_new.
  - now apply from_s3_unresolved with reported.
Qed.

(** C5 at an XML feed, served over HTTP and stored in a bucket. *)
Lemma unresolved_tag_asymmetry_example :
  (exists l w',
     from_url Fixtures.xml_url None Fixtures.online = (Ok l, w')
     /\ heap w' !! l = Some (mkRawFile (lit "<feed/>") HTML))
  /\ from_s3 "docs" "archive/feed.xml" None Fixtures.online
     = (Raise (ValueError undetermined), Fixtures.online).
Proof.
  apply (unresolved_tag_asymmetry Fixtures.online Fixtures.xml_url
           "docs" "archive/feed.xml" Fixtures.xml_response
           (Some "application/xml")); reflexivity.
Defined.

(** ** Explicit tags *)

(** The outcome [r] of a constructor run in [w] is a failure or a new
    object tagged [t]. *)
Definition new_with_tag (t : FileExtension) (w : World)
    (r : outcome loc * World) : Prop :=
match r with
| (Ok l, w') =>
    exists data, l = length (heap w) /\ heap w' = heap w ++ [mkRawFile data t]
| (Raise _, _) => True
end.

Lemma new_with_tag_new t w w1 data :
  heap w1 = heap w -> new_with_tag t w (new (mkRawFile data t) w1).
Proof. intros H. cbn. rewrite H. now exists data. Qed.

Ltac case_calls :=
  repeat (
    cbv beta iota; rewrite ?truthy_Some; cbn [negb];
    match goal with
    | |- new_with_tag _ _ (new _ _) => apply new_with_tag_new; reflexivity
    | |- new_with_tag _ _ (Raise _, _) => exact I
    | |- new_with_tag _ _ (let (_, _) := match ?x with _ => _ end in _) =>
        destruct x
    | |- new_with_tag _ _ (match ?x with _ => _ end) => destruct x
    | |- new_with_tag _ _ (match ?x with _ => _ end _) => destruct x
    | |- new_with_tag _ _ (if ?x then _ else _) => destruct x
    | |- new_with_tag _ _ ((if ?x then _ else _) _) => destruct x
    end).

Lemma from_url_explicit url t w : new_with_tag t w (from_url url (Some t) w).
Proof.
  destruct (requests_get (env w) url) as [e|response] eqn:E.
  - now rewrite (from_url_failed _ _ _ _ E).
  - rewrite (from_url_answered _ _ _ _ E), or_else_Some. now eexists.
Qed.

(** With an explicit tag, [from_s3] asks S3 for the body only, and returns
    once it has it. *)
Lemma from_s3_explicit_returns bucket_name object_key t w data :
  find_loader (env w) "boto3" = true ->
  s3_client (env w) = inr tt ->
  s3_get_object (env w) bucket_name object_key = inr data ->
  from_s3 bucket_name object_key (Some t) w =
  (Ok (length (heap w)), set_heap (heap w ++ [mkRawFile data t]) w).
Proof.
  intros Hloader Hclient Hget. unfold from_s3.
  rewrite (bind_ok _ _ w true w) by (unfold gets; now rewrite Hloader).
  cbn [negb].
  rewrite (bind_ok _ _ w tt w) by (unfold call; now rewrite Hclient).
  rewrite truthy_Some. cbn [negb].
  rewrite (bind_ok _ _ w (Some t) w) by reflexivity.
  rewrite truthy_Some. cbn [negb].
  rewrite (bind_ok _ _ w data w) by (unfold call; now rewrite Hget).
  reflexivity.
Qed.

Lemma from_s3_explicit bucket_name object_key t w :
  new_with_tag t w (from_s3 bucket_name object_key (Some t) w).
Proof.
  unfold from_s3, bind, gets, call, raise, ret. rewrite truthy_Some.
  cbn [negb]. case_calls.
Qed.

Lemma from_azure_blob_explicit connection_string container_name blob_name t w :
  new_with_tag t w
    (from_azure_blob connection_string container_name blob_name (Some t) w).
Proof.
  unfold from_azure_blob, bind, gets, call, raise, ret. rewrite truthy_Some.
  cbn [negb]. case_calls.
Qed.

Lemma from_gcs_explicit bucket_name blob_name t w :
  new_with_tag t w (from_gcs bucket_name blob_name (Some t) w).
Proof.
  unfold from_gcs, bind, gets, call, raise, ret. rewrite truthy_Some.
  cbn [negb]. case_calls.
Qed.

Lemma from_zip_explicit zip_file_path inner_file_path t w :
  new_with_tag t w (from_zip zip_file_path inner_file_path (Some t) w).
Proof.
  unfold from_zip, bind, read_binary, call, raise, ret. rewrite truthy_Some.
  cbn [negb]. case_calls.
Qed.

Lemma from_ftp_explicit host filepath username password t w :
  new_with_tag t w (from_ftp host filepath username password (Some t) w).
Proof.
  unfold from_ftp, bind, call, raise, ret. rewrite truthy_Some.
  cbn [negb]. case_calls.
Qed.

(** A constructor of [source], called with an explicit tag [t], returns,
    when it returns, a new instance whose extension is [t]. *)
Lemma acquire_with_tag (s : source) (t : FileExtension) (w w' : World) (l : loc) :
  acquire s (Some t) w = (Ok l, w') ->
  extension <$> heap w' !! l = Some t /\ heap w !! l = None.
Proof.
  intros H.
  assert (Htag : new_with_tag t w (acquire s (Some t) w)).
  { destruct s; cbn [acquire];
      auto using from_url_explicit, from_s3_explicit, from_azure_blob_explicit,
        from_gcs_explicit, from_zip_explicit, from_ftp_explicit. }
  rewrite H in Htag. destruct Htag as (data & -> & ->).
  now rewrite lookup_new, lookup_fresh.
Qed.

(** The tag of a file acquired from a local path is the member whose value
    is the path's suffix. *)
Lemma from_file_path_tag w file_path l w' :
  from_file_path file_path w = (Ok l, w') ->
  exists e,
    by_value (suffix_of file_path) = Some e
    /\ extension <$> heap w' !! l = Some e.
Proof.
  intros H. destruct (fs w !! file_path) as [[data|]|] eqn:Hfs.
  - rewrite (from_file_path_file _ _ _ Hfs) in H.
    destruct (by_value (suffix_of file_path)) as [e|]; [|discriminate H].
    injection H as <- <-. exists e. split; [reflexivity|].
    cbn. now rewrite lookup_new.
  - rewrite (from_file_path_directory _ _ Hfs) in H. discriminate H.
  - rewrite (from_file_path_missing _ _ Hfs) in H. discriminate H.
Qed.

(** C4, as the code has it.  Every constructor that takes an optional
    extension ([from_url], [from_s3], [from_azure_blob], [from_gcs],
    [from_zip], [from_ftp]) accepts an explicit tag [t], and the instance
    it then returns has extension [t], whatever tag the source would have
    implied.  [from_file_path] accepts no tag: a call that passes one
    raises [TypeError] before anything is read, and the instance a call
    without it returns is tagged by the suffix of the path. *)
Theorem explicit_tag_override :
  (forall s, override_wins (FromSource s))
  /\ (forall file_path t, pass_extension (FromFilePath file_path) t = TypeError)
  /\ (forall file_path w l w',
        from_file_path file_path w = (Ok l, w') ->
        exists e,
          by_value (suffix_of file_path) = Some e
          /\ extension <$> heap w' !! l = Some e).
Proof.
  split; [|split].
  - intros s t. cbn [pass_extension]. intros w l w' H.
    now apply (acquire_with_tag s t w w' l).
  - reflexivity.
  - intros file_path w l w'. apply from_file_path_tag.
Qed.

(** C4 at a URL served as [text/plain] and acquired as PDF, and at the
    file [notes.txt], tagged TXT. *)
Lemma explicit_tag_override_example :
  (declared_content_type Fixtures.text_response = "text/plain"
   /\ (acquire (Url Fixtures.notes_url) (Some PDF) Fixtures.online).1 = Ok 0%nat
   /\ extension <$>
        heap (acquire (Url Fixtures.notes_url) (Some PDF) Fixtures.online).2
          !! 0%nat = Some PDF)
  /\ exists e,
       by_value (suffix_of "notes.txt") = Some e
       /\ extension <$> heap (from_file_path "notes.txt" Fixtures.desk).2
            !! 0%nat = Some e.
Proof.
  split.
  - split; [reflexivity|]. split; [reflexivity|].
    apply (proj1 explicit_tag_override (Url Fixtures.notes_url) PDF
             Fixtures.online).
    reflexivity.
  - apply (proj2 (proj2 explicit_tag_override) "notes.txt" Fixtures.desk).
    rewrite (from_file_path_file _ _ (lit "remember the milk"))
      by (vm_compute; reflexivity).
    reflexivity.
Defined.

(** C4 as stated fails for local paths.  The claim counts the local-path
    constructor among those that accept an explicit tag, with the example
    of a [.txt] path acquired as PDF; the call
    [from_file_path("notes.txt", extension=PDF)] fits no parameter, raises
    [TypeError] and returns no file. *)
Lemma local_path_takes_no_tag : ~ override_wins (FromFilePath "notes.txt").
Proof. intros H. exact (H PDF). Qed.

(** ** The bridge *)

Section Bridge.

Import Functions.

Context {effect A : Type}.

Implicit Types (coro : coroutine effect A) (t : Thread effect).

(** Driving a coroutine performs its effects, in order, after those
    already performed. *)
Lemma run_until_complete_effects coro done :
  (run_until_complete coro done).2 = done ++ effects coro.
Proof.
  revert done. induction coro as [a|e|ev k IH|k IH]; intros done; cbn.
  - now rewrite app_nil_r.
  - now rewrite app_nil_r.
  - now rewrite IH, <- app_assoc.
  - apply IH.
Qed.

Lemma run_until_complete_ending coro done :
  match (run_until_complete coro done).1 with
  | Ok _ => Ok tt
  | Raise e => Raise e
  end = ending coro.
Proof.
  revert done. induction coro as [a|e|ev k IH|k IH]; intros done; cbn; auto.
Qed.

(** C9.  Called on a thread with no running event loop, [fire_and_forget]
    creates a loop, drives the coroutine to its end, and closes the loop:
    when it returns, every effect of the coroutine has been performed, in
    order, the new loop is closed, and no loop is running.  It returns
    [None], or raises what the coroutine raised. *)
Theorem fire_and_forget_without_loop coro t :
  running t = None ->
  fire_and_forget coro t =
  (ending coro,
   mkThread None (loops t ++ [mkLoop [] true]) (performed t ++ effects coro)).
Proof.
  intros Hnone.
  unfold fire_and_forget, try_except_RuntimeError, bind at 1, get_running_loop.
  rewrite Hnone. unfold bind, asyncio_run. rewrite Hnone.
  pose proof (run_until_complete_effects coro (performed t)) as He.
  pose proof (run_until_complete_ending coro (performed t)) as Hr.
  destruct (run_until_complete coro (performed t)) as [[a|e] done];
    cbn in He, Hr; subst done; rewrite <- Hr; reflexivity.
Qed.

(** With a loop running, the call returns at once: the task is queued and
    nothing of it has run. *)
Lemma fire_and_forget_with_loop coro t loop l :
  running t = Some loop ->
  loops t !! loop = Some l ->
  closed l = false ->
  fire_and_forget coro t =
  (Ok tt,
   mkThread (Some loop)
     (<[loop := mkLoop (tasks l ++ [forget coro]) false]> (loops t))
     (performed t)).
Proof.
  intros Hrun Hloop Hopen.
  unfold fire_and_forget, try_except_RuntimeError, bind, get_running_loop,
    create_task.
  rewrite Hrun, Hloop, Hopen. cbn. now rewrite Hrun.
Qed.

End Bridge.

(** C9 at a coroutine that increments a counter: the increment has
    happened when the call returns. *)
Lemma fire_and_forget_without_loop_example :
  Functions.fire_and_forget Fixtures.increment Fixtures.plain_thread =
  (Functions.Ok tt,
   Functions.mkThread None [Functions.mkLoop [] true] [tt]).
Proof.
  apply (fire_and_forget_without_loop Fixtures.increment Fixtures.plain_thread).
  reflexivity.
Defined.

(* ===================================================================== *)
(** * Further properties of files.py and functions.py *)
(* ===================================================================== *)

(** ** base64 text *)

Section Base64More.

Import Base64.

Import Base64Text.

Lemma a2b_loop_significant s : forall quad_pos leftchar pads out,
  a2b_loop s quad_pos leftchar pads out =
  a2b_loop (List.filter significant s) quad_pos leftchar pads out.
Proof.
  induction s as [|c s IH]; intros quad_pos leftchar pads out; [reflexivity|].
  cbn [List.filter]. unfold significant at 1.
  destruct (Byte.eqb c BASE64_PAD) eqn:Epad.
  - cbn [orb a2b_loop]. rewrite Epad.
    destruct (2 <=? quad_pos)%nat; [|apply IH].
    destruct (4 <=? quad_pos + S pads)%nat; [reflexivity|apply IH].
  - cbn [orb]. destruct (a2b c) as [this_ch|] eqn:Ech.
    + cbn [a2b_loop]. rewrite Epad, Ech.
      destruct quad_pos as [|[|[|]]]; apply IH.
    + cbn [a2b_loop]. rewrite Epad, Ech. apply IH.
Qed.

(** Decoding an encoding followed by more text: after a padded encoding
    the rest is not read; after an unpadded one decoding goes on. *)
Lemma a2b_loop_b64encode_app s : forall rest out,
  a2b_loop (b64encode s ++ rest) 0%nat 0 0%nat out =
  if (length s mod 3 =? 0)%nat then a2b_loop rest 0%nat 0 0%nat (rev s ++ out)
  else inr (rev out ++ s).
Proof.
  induction s as [|x|x y|x y z s IH] using list_ind3; intros rest out.
  - reflexivity.
  - cbn [b64encode app].
    rewrite a2b_loop_data by apply sextet0_lt.
    rewrite a2b_loop_data by apply sextet1_last_lt.
    rewrite join0_last. reflexivity.
  - cbn [b64encode app].
    rewrite a2b_loop_data by apply sextet0_lt.
    rewrite a2b_loop_data by apply sextet1_lt.
    rewrite a2b_loop_data by apply sextet2_last_lt.
    rewrite join0, left1, join1_last. cbn. now rewrite <- !app_assoc.
  - cbn [b64encode]. rewrite <- app_assoc, a2b_loop_group, IH.
    replace (length (x :: y :: z :: s) mod 3)%nat with (length s mod 3)%nat.
    2:{ cbn [length]. replace (S (S (S (length s)))) with (length s + 1 * 3)%nat by lia.
        now rewrite Nat.Div0.mod_add. }
    destruct (length s mod 3 =? 0)%nat.
    + cbn [rev]. now rewrite <- !app_assoc.
    + cbn [rev]. now rewrite <- !app_assoc.
Qed.

Lemma a2b_loop_unpadded s : forall out,
  (length s mod 3 <> 0)%nat ->
  a2b_loop (unpadded s) 0%nat 0 0%nat out = inl IncorrectPadding.
Proof.
  unfold unpadded.
  induction s as [|x|x y|x y z s IH] using list_ind3; intros out Hlen.
  - now cbn in Hlen.
  - cbn [b64encode List.filter].     rewrite (proj1 (b2a_a2b _ (sextet0_lt x))).
    rewrite (proj1 (b2a_a2b _ (sextet1_last_lt x))).
    cbn [negb List.filter]. change (Byte.eqb BASE64_PAD BASE64_PAD) with true.
    cbn [negb].
    rewrite a2b_loop_data by apply sextet0_lt.
    rewrite a2b_loop_data by apply sextet1_last_lt.
    reflexivity.
  - cbn [b64encode List.filter].     rewrite (proj1 (b2a_a2b _ (sextet0_lt x))).
    rewrite (proj1 (b2a_a2b _ (sextet1_lt x y))).
    rewrite (proj1 (b2a_a2b _ (sextet2_last_lt y))).
    cbn [negb List.filter]. change (Byte.eqb BASE64_PAD BASE64_PAD) with true.
    cbn [negb].
    rewrite a2b_loop_data by apply sextet0_lt.
    rewrite a2b_loop_data by apply sextet1_lt.
    rewrite a2b_loop_data by apply sextet2_last_lt.
    reflexivity.
  - cbn [b64encode]. rewrite List.filter_app.
    assert (Hgroup : List.filter (fun c => negb (Byte.eqb c BASE64_PAD)) (encode_group x y z)
                     = encode_group x y z).
    { unfold encode_group. cbn [List.filter].
      rewrite (proj1 (b2a_a2b _ (sextet0_lt x))).
      rewrite (proj1 (b2a_a2b _ (sextet1_lt x y))).
      rewrite (proj1 (b2a_a2b _ (sextet2_lt y z))).
      rewrite (proj1 (b2a_a2b _ (sextet3_lt z))).
      reflexivity. }
    rewrite Hgroup, a2b_loop_group. apply IH.
    cbn [length] in Hlen.
    replace (S (S (S (length s)))) with (length s + 1 * 3)%nat in Hlen by lia.
    now rewrite Nat.Div0.mod_add in Hlen.
Qed.


Lemma ascii_filter (P : byte -> bool) (s : bytes) :
  Forall (fun c => Byte.to_N c < 128) s ->
  Forall (fun c => Byte.to_N c < 128) (List.filter P s).
Proof.
  induction 1 as [|c s Hc _ IH]; cbn; [constructor|].
  destruct (P c); [now constructor|exact IH].
Qed.

(** X1: characters outside the alphabet are skipped. *)
Theorem from_base64_skips_other_characters
    (text b : bytes) (t : FileExtension) (w : World) :
  Forall (fun c => Byte.to_N c < 128) text ->
  List.filter significant text = b64encode b ->
  from_base64 (string_of_list_byte text) t w = from_bytes b t w.
Proof.
  intros Hascii Htext. unfold from_base64.
  rewrite (bind_ok _ _ w b w); [reflexivity|].
  unfold b64decode. rewrite (ascii_text_check _ Hascii).
  rewrite list_byte_of_string_of_list_byte. unfold a2b_base64.
  now rewrite a2b_loop_significant, Htext, a2b_loop_b64encode.
Qed.

Lemma from_base64_skips_other_characters_example :
  from_base64 "SGVs bG8=" TXT Fixtures.bare = from_bytes (lit "Hello") TXT Fixtures.bare.
Proof.
  apply (from_base64_skips_other_characters
           (list_byte_of_string "SGVs bG8=") (lit "Hello") TXT Fixtures.bare).
  - repeat constructor.
  - reflexivity.
Defined.

(** X2: an encoding without its padding is refused. *)
Theorem from_base64_without_padding (b : bytes) (t : FileExtension) (w : World) :
  (length b mod 3 <> 0)%nat ->
  from_base64 (string_of_list_byte (unpadded b)) t w =
  (Raise (BinasciiError "Incorrect padding"), w).
Proof.
  intros Hlen. unfold from_base64, bind, b64decode.
  rewrite ascii_text_check
    by (apply ascii_filter, b64encode_is_ascii).
  rewrite list_byte_of_string_of_list_byte. unfold a2b_base64.
  now rewrite a2b_loop_unpadded.
Qed.

Lemma from_base64_without_padding_example :
  from_base64 "SGVsbG8" TXT Fixtures.bare =
  (Raise (BinasciiError "Incorrect padding"), Fixtures.bare).
Proof.
  apply (from_base64_without_padding (lit "Hello") TXT Fixtures.bare).
  vm_compute. discriminate.
Defined.

(** X3: two encodings one after the other. *)
Theorem from_base64_of_two_encodings
    (b1 b2 : bytes) (t : FileExtension) (w : World) :
  from_base64 (string_of_list_byte (b64encode b1 ++ b64encode b2)) t w =
  from_bytes (if (length b1 mod 3 =? 0)%nat then b1 ++ b2 else b1) t w.
Proof.
  unfold from_base64.
  rewrite (bind_ok _ _ w (if (length b1 mod 3 =? 0)%nat then b1 ++ b2 else b1) w);
    [reflexivity|].
  unfold b64decode.
  rewrite ascii_text_check
    by (apply Forall_app; split; apply b64encode_is_ascii).
  rewrite list_byte_of_string_of_list_byte. unfold a2b_base64.
  rewrite a2b_loop_b64encode_app.
  destruct (length b1 mod 3 =? 0)%nat; [|reflexivity].
  rewrite a2b_loop_b64encode, rev_app_distr, rev_involutive. reflexivity.
Qed.

End Base64More.

(** ** What an acquisition does to the world *)

(** [m] creates exactly one object, at the next location, or raises and
    creates none; either way the objects there were and the disk stay as
    they are. *)
Definition acquisition {A} (loc_of : A -> loc) (m : M A) : Prop :=
  forall w,
    match m w with
    | (Ok a, w') =>
        loc_of a = length (heap w)
        /\ (exists f, heap w' = heap w ++ [f])
        /\ fs w' = fs w
    | (Raise _, w') => heap w' = heap w /\ fs w' = fs w
    end.

(** [m] leaves the objects and the disk as they are. *)
Definition quiet {A} (m : M A) : Prop :=
  forall w, heap (m w).2 = heap w /\ fs (m w).2 = fs w.

Lemma quiet_ret {A} (a : A) : quiet (ret a).
Proof. now intros w. Qed.

Lemma quiet_raise {A} e : quiet (@raise A e).
Proof. now intros w. Qed.

Lemma quiet_gets {A} (f : World -> A) : quiet (gets f).
Proof. now intros w. Qed.

Lemma quiet_modify f :
  (forall w, heap (f w) = heap w /\ fs (f w) = fs w) -> quiet (modify f).
Proof. intros H w. apply H. Qed.

Lemma quiet_call {A} (f : Collaborators -> exception + A) : quiet (call f).
Proof. intros w. unfold call. now destruct (f (env w)). Qed.

Lemma quiet_read_binary p : quiet (read_binary p).
Proof. intros w. unfold read_binary. now destruct (fs w !! p) as [[]|]. Qed.

Lemma quiet_bind {A B} (m : M A) (k : A -> M B) :
  quiet m -> (forall a, quiet (k a)) -> quiet (bind m k).
Proof.
  intros Hm Hk w. unfold bind. destruct (Hm w) as [H1 H2].
  destruct (m w) as [[a|e] w1]; cbn in H1, H2.
  - destruct (Hk a w1) as [H3 H4]. split; congruence.
  - now split.
Qed.

Lemma acquisition_raise {A} (loc_of : A -> loc) e :
  acquisition loc_of (raise e).
Proof. now intros w. Qed.

Lemma acquisition_new f : acquisition id (new f).
Proof. intros w. cbn. split; [reflexivity|]. split; [now exists f|reflexivity]. Qed.

Lemma acquisition_new_with {A} f (a : A) :
  acquisition fst (bind (new f) (fun l => ret (l, a))).
Proof. intros w. cbn. split; [reflexivity|]. split; [now exists f|reflexivity]. Qed.

Lemma acquisition_bind {A B} (loc_of : B -> loc) (m : M A) (k : A -> M B) :
  quiet m -> (forall a, acquisition loc_of (k a)) ->
  acquisition loc_of (bind m k).
Proof.
  intros Hm Hk w. unfold bind. destruct (Hm w) as [H1 H2].
  destruct (m w) as [[a|e] w1]; cbn in H1, H2.
  - specialize (Hk a w1). destruct (k a w1) as [[b|e] w2].
    + now rewrite <- H1, <- H2.
    + destruct Hk. split; congruence.
  - now split.
Qed.

Ltac quiet_step :=
  match goal with
  | |- quiet (bind _ _) => apply quiet_bind; [|intros ?]
  | |- quiet (ret _) => apply quiet_ret
  | |- quiet (raise _) => apply quiet_raise
  | |- quiet (gets _) => apply quiet_gets
  | |- quiet (call _) => apply quiet_call
  | |- quiet (read_binary _) => apply quiet_read_binary
  | |- quiet (modify _) => apply quiet_modify; intros ?; split; reflexivity
  | |- quiet (if ?b then _ else _) => destruct b
  | |- quiet (match ?x with _ => _ end) => destruct x
  end.

Ltac acquisition_step :=
  match goal with
  | |- acquisition _ (raise _) => apply acquisition_raise
  | |- acquisition _ (new _) => apply acquisition_new
  | |- acquisition _ (bind (new _) _) => apply acquisition_new_with
  | |- acquisition _ (bind _ _) =>
      apply acquisition_bind; [repeat quiet_step|intros ?]
  | |- acquisition _ (if ?b then _ else _) => destruct b
  | |- acquisition _ (match ?x with _ => _ end) => destruct x
  | |- acquisition _ (let (_, _) := ?x in _) => destruct x
  end.

Ltac solve_acquisition := repeat acquisition_step.

Lemma quiet_FileExtension_call v : quiet (FileExtension_call v).
Proof. unfold FileExtension_call. repeat quiet_step. Qed.

Lemma quiet_b64decode s : quiet (b64decode s).
Proof. unfold b64decode. repeat quiet_step. Qed.

Lemma acquisition_from_file_path p : acquisition id (from_file_path p).
Proof.
  unfold from_file_path, path_exists, path_is_file.
  repeat (acquisition_step; try apply quiet_FileExtension_call).
Qed.

Lemma acquisition_from_base64 s e : acquisition id (from_base64 s e).
Proof.
  unfold from_base64, from_bytes.
  apply acquisition_bind; [apply quiet_b64decode|intros ?].
  apply acquisition_new.
Qed.

Lemma acquisition_acquire s e : acquisition id (acquire s e).
Proof.
  destruct s; unfold acquire, from_url, from_s3, from_azure_blob, from_gcs,
    from_zip, from_ftp;
    repeat (acquisition_step; try apply quiet_FileExtension_call).
Qed.

Lemma acquisition_from_stdin e : acquisition id (from_stdin e).
Proof. unfold from_stdin, from_bytes. solve_acquisition. Qed.

Import Streams.

Lemma acquisition_from_stream s e : acquisition fst (from_stream s e).
Proof. unfold from_stream. solve_acquisition. Qed.

Lemma acquisition_from_litestar_upload_file f :
  acquisition fst (from_litestar_upload_file f).
Proof. unfold from_litestar_upload_file. solve_acquisition. Qed.

Lemma acquisition_from_fastapi_upload_file f :
  acquisition fst (from_fastapi_upload_file f).
Proof. unfold from_fastapi_upload_file. solve_acquisition. Qed.

(** X4: every constructor adds one object or none. *)
Theorem constructors_add_one_object_or_none :
  (forall file_path, acquisition id (from_file_path file_path))
  /\ (forall data extension, acquisition id (from_bytes data extension))
  /\ (forall b64_string extension,
        acquisition id (from_base64 b64_string extension))
  /\ (forall s extension, acquisition id (acquire s extension))
  /\ (forall blob_data extension,
        acquisition id (from_database_blob blob_data extension))
  /\ (forall extension, acquisition id (from_stdin extension))
  /\ (forall stream extension, acquisition fst (from_stream stream extension))
  /\ (forall file, acquisition fst (from_litestar_upload_file file))
  /\ (forall file, acquisition fst (from_fastapi_upload_file file)).
Proof.
  split; [exact acquisition_from_file_path|].
  split; [intros; apply acquisition_new|].
  split; [exact acquisition_from_base64|].
  split; [exact acquisition_acquire|].
  split; [intros; apply acquisition_new|].
  split; [exact acquisition_from_stdin|].
  split; [exact acquisition_from_stream|].
  split; [exact acquisition_from_litestar_upload_file|].
  exact acquisition_from_fastapi_upload_file.
Qed.

(** ** Operations and the rest of the world *)

(** The operations that only read. *)
Definition reads_only (op : operation) : bool :=
match op with
| SaveToFile _ | Compress | Decompress => false
| _ => true
end.

Lemma perform_read_only op self w :
  reads_only op = true -> (perform op self w).2 = w.
Proof.
  intros Hop.
  destruct op; try discriminate Hop;
    unfold perform, get_size, compute_md5, compute_sha256, get_mime_type,
      read_async, __enter__, __exit__, __setattr__, bind, deref, ret, raise;
    try reflexivity; now destruct (heap w !! self).
Qed.

Lemma perform_elsewhere op self w :
  let w' := (perform op self w).2 in
  stdin w' = stdin w /\ requests_log w' = requests_log w
  /\ clock w' = clock w /\ env w' = env w
  /\ forall q, (forall p, op = SaveToFile p -> q <> p) -> fs w' !! q = fs w !! q.
Proof.
  destruct (reads_only op) eqn:Hop.
  - cbv zeta. now rewrite (perform_read_only _ _ _ Hop).
  - destruct op as [file_path| | | | | | | | | | |]; try discriminate Hop;
      cbv zeta;
      unfold perform, save_to_file, compress, decompress, bind, deref, gets,
        call, ret, write_binary, new.
    + destruct (heap w !! self) as [f|]; [|now repeat split].
      destruct (fs w !! file_path) as [[|]|] eqn:E; cbn; repeat split;
        try reflexivity; intros q Hq;
        rewrite lookup_insert_ne; auto; intros Heq;
        now apply (Hq file_path eq_refl).
    + destruct (heap w !! self) as [f|]; now repeat split.
    + destruct (heap w !! self) as [f|]; [|now repeat split].
      cbn. destruct (gzip_decompress (env w) (contents f)); now repeat split.
Qed.

(** X5: what an operation leaves alone. *)
Theorem operations_leave_the_rest_alone (op : operation) (self : loc) (w : World) :
  (reads_only op = true -> (perform op self w).2 = w)
  /\ stdin (perform op self w).2 = stdin w
  /\ requests_log (perform op self w).2 = requests_log w
  /\ forall q, (forall p, op = SaveToFile p -> q <> p) ->
       fs (perform op self w).2 !! q = fs w !! q.
Proof.
  split; [apply perform_read_only|].
  destruct (perform_elsewhere op self w) as (H1 & H2 & _ & _ & H3). auto.
Qed.

(** ** Saving and reading back *)

Lemma by_value_value e : by_value (value e) = Some e.
Proof. now destruct e. Qed.

(** X6: a saved file read back is equal to the original.  The path is a
    bare name, so the file goes into the current directory. *)
Theorem save_then_load (self : loc) (w : World) (f : RawFile) (file_path : string) :
  heap w !! self = Some f ->
  Scenes.lacks "/" file_path = true ->
  fs w !! file_path <> Some Directory ->
  suffix_of file_path = value (extension f) ->
  exists l w',
    (let* _ := save_to_file self file_path in from_file_path file_path) w
      = (Ok l, w')
    /\ l <> self
    /\ heap w' !! l = Some f
    /\ __eq__ self l w' = (Ok true, w').
Proof.
  intros Hself _ Hdir Hsuffix.
  set (w1 := set_fs (<[file_path := File (contents f)]> (fs w)) w).
  assert (Hsave : save_to_file self file_path w = (Ok tt, w1)).
  { unfold save_to_file. rewrite (bind_ok _ _ _ _ _ (deref_spec _ _ _ Hself)).
    unfold write_binary. destruct (fs w !! file_path) as [[|]|]; try reflexivity.
    now contradiction Hdir. }
  assert (Hfile : fs w1 !! file_path = Some (File (contents f)))
    by apply lookup_insert_eq.
  pose proof (from_file_path_file w1 file_path _ Hfile) as Hload.
  rewrite Hsuffix, by_value_value in Hload.
  replace (mkRawFile (contents f) (extension f)) with f in Hload
    by now destruct f.
  exists (length (heap w1)), (set_heap (heap w1 ++ [f]) w1).
  split; [now rewrite (bind_ok _ _ _ _ _ Hsave)|].
  split; [now apply fresh_is_not with f|].
  split; [apply lookup_new|].
  unfold __eq__.
  rewrite (bind_ok _ _ _ f _) by (apply deref_spec; now apply lookup_kept).
  rewrite (bind_ok _ _ _ f _) by (apply deref_spec; apply lookup_new).
  unfold ret. now rewrite bytes_eq_refl, String.eqb_refl.
Qed.

Lemma save_then_load_example :
  exists l w',
    (let* _ := save_to_file 0%nat "greeting.txt" in
     from_file_path "greeting.txt") Fixtures.hello = (Ok l, w')
    /\ l <> 0%nat
    /\ heap w' !! l = Some (mkRawFile (lit "Hello, World!") TXT)
    /\ __eq__ 0%nat l w' = (Ok true, w').
Proof.
  apply (save_then_load 0%nat Fixtures.hello
           (mkRawFile (lit "Hello, World!") TXT) "greeting.txt").
  - reflexivity.
  - reflexivity.
  - vm_compute. discriminate.
  - reflexivity.
Defined.

(** ** MIME types and content types *)



Import Scenes.

(** ** Content types *)

Lemma append_empty (s : string) : ("" ++ s)%string = s.
Proof. reflexivity. Qed.

Lemma append_String (x : ascii) (a s : string) :
  (String x a ++ s)%string = String x (a ++ s)%string.
Proof. reflexivity. Qed.

Lemma lacks_app_with c a rest : lacks c (a ++ String c rest) = false.
Proof.
  unfold lacks. induction a as [|x a IH].
  - rewrite append_empty. cbn -[Ascii.eqb]. now rewrite Ascii.eqb_refl.
  - rewrite append_String. cbn -[Ascii.eqb].
    destruct (Ascii.eqb x c); [reflexivity|exact IH].
Qed.

Lemma split_nonempty sep s : Str.split sep s <> [].
Proof.
  destruct s as [|c s]; cbn -[Ascii.eqb]; [discriminate|].
  destruct (Ascii.eqb c sep); [discriminate|].
  destruct (Str.split sep s); discriminate.
Qed.

(** What precedes the first separator. *)
Lemma split_head sep a rest :
  lacks sep a = true ->
  hd "" (Str.split sep (a ++ String sep rest)) = a.
Proof.
  unfold lacks. induction a as [|x a IH]; cbn -[Ascii.eqb]; intros H.
  - rewrite append_empty. cbn -[Ascii.eqb]. now rewrite Ascii.eqb_refl.
  - apply andb_true_iff in H. destruct H as [Hx Ha].
    apply negb_true_iff in Hx. rewrite append_String. cbn -[Ascii.eqb].
    rewrite Hx.
    specialize (IH Ha).
    destruct (Str.split sep (a ++ String sep rest)) as [|h t] eqn:E.
    + now apply split_nonempty in E.
    + cbn [hd] in *. now rewrite IH.
Qed.

(** The content types of the table contain no [;]. *)
Lemma mapped_content_type ct e :
  Str.lookup ct content_type_map = Some e -> lacks ";" ct = true.
Proof.
  unfold content_type_map. cbn [Str.lookup].
  repeat match goal with
  | |- context [String.eqb ?k ct] =>
      destruct (String.eqb_spec k ct) as [<-|_]; [intros _; reflexivity|]
  end.
  discriminate.
Qed.

Lemma unmapped_with_parameters ct params :
  Str.lookup (ct ++ String ";" params) content_type_map = None.
Proof.
  destruct (Str.lookup (ct ++ String ";" params) content_type_map) as [e|] eqn:E;
    [|reflexivity].
  apply mapped_content_type in E. now rewrite lacks_app_with in E.
Qed.

(** X8: parameters of the Content-Type header are dropped by [from_url]. *)
Theorem from_url_drops_parameters
    (url : string) (w : World) (response : Response)
    (ct params : string) (e : FileExtension) :
  requests_get (env w) url = inr response ->
  headers_get "Content-Type" "" (headers response)
    = (ct ++ String ";" params)%string ->
  Str.lookup ct content_type_map = Some e ->
  exists l w',
    from_url url None w = (Ok l, w')
    /\ heap w' !! l = Some (mkRawFile (content response) e).
Proof.
  intros Hget Hheader Hmapped.
  rewrite (from_url_answered _ _ _ _ Hget). unfold declared_content_type.
  rewrite Hheader, (split_head _ _ _ (mapped_content_type _ _ Hmapped)).
  cbn [_get_extension_from_content_type]. rewrite Hmapped, or_else_Some.
  cbn [or_else].
  eexists _, _. split; [reflexivity|].
  cbn [heap set_heap]. apply lookup_new.
Qed.

Lemma from_url_drops_parameters_example :
  exists l w',
    from_url page_url None office = (Ok l, w')
    /\ heap w' !! l = Some (mkRawFile (lit "<p>hi</p>") HTML).
Proof.
  apply (from_url_drops_parameters page_url office page_response
           "text/html" " charset=utf-8" HTML); reflexivity.
Defined.

(** ** Buckets: suffix, then reported content type *)

(** Member names are upper case, member values are not. *)
Lemma by_value_name e : by_value (name e) = None.
Proof. now destruct e. Qed.

Lemma by_name_upper_name e : by_name (Str.upper (name e)) = Some e.
Proof. now destruct e. Qed.

(** What [from_s3] returns once the tag is known from the key. *)
Lemma from_s3_suffix w bucket_name object_key e data :
  find_loader (env w) "boto3" = true ->
  s3_client (env w) = inr tt ->
  by_name (Str.upper (suffix_of object_key)) = Some e ->
  s3_get_object (env w) bucket_name object_key = inr data ->
  from_s3 bucket_name object_key None w =
  (Ok (length (heap w)), set_heap (heap w ++ [mkRawFile data e]) w).
Proof.
  intros Hloader Hclient Hname Hget. unfold from_s3.
  rewrite (bind_ok _ _ w true w) by (unfold gets; now rewrite Hloader).
  cbn [negb].
  rewrite (bind_ok _ _ w tt w) by (unfold call; now rewrite Hclient).
  cbn [negb truthy]. rewrite Hname.
  rewrite (bind_ok _ _ w (Some e) w) by reflexivity.
  rewrite truthy_Some. cbn [negb].
  rewrite (bind_ok _ _ w data w) by (unfold call; now rewrite Hget).
  reflexivity.
Qed.

(** What [from_s3] returns once the tag is known from the content type. *)
Lemma from_s3_reported w bucket_name object_key reported e data :
  find_loader (env w) "boto3" = true ->
  s3_client (env w) = inr tt ->
  by_name (Str.upper (suffix_of object_key)) = None ->
  s3_head_object (env w) bucket_name object_key = inr reported ->
  _get_extension_from_content_type (Some (default "" reported)) = Some e ->
  s3_get_object (env w) bucket_name object_key = inr data ->
  from_s3 bucket_name object_key None w =
  (Ok (length (heap w)), set_heap (heap w ++ [mkRawFile data e]) w).
Proof.
  intros Hloader Hclient Hname Hhead Htype Hget. unfold from_s3.
  rewrite (bind_ok _ _ w true w) by (unfold gets; now rewrite Hloader).
  cbn [negb].
  rewrite (bind_ok _ _ w tt w) by (unfold call; now rewrite Hclient).
  cbn [negb truthy]. rewrite Hname.
  rewrite (bind_ok _ _ w (Some e) w).
  2:{ rewrite (bind_ok _ _ w reported w) by (unfold call; now rewrite Hhead).
      unfold ret. now rewrite Htype. }
  rewrite truthy_Some. cbn [negb].
  rewrite (bind_ok _ _ w data w) by (unfold call; now rewrite Hget).
  reflexivity.
Qed.

(** X9: a suffix in upper case is refused on disk and accepted in a bucket. *)
Theorem upper_case_suffix
    (w : World) (e : FileExtension) (file_path bucket_name object_key : string)
    (on_disk in_bucket : bytes) :
  suffix_of file_path = name e ->
  suffix_of object_key = name e ->
  fs w !! file_path = Some (File on_disk) ->
  find_loader (env w) "boto3" = true ->
  s3_client (env w) = inr tt ->
  s3_get_object (env w) bucket_name object_key = inr in_bucket ->
  from_file_path file_path w =
    (Raise (ValueError ("'" ++ name e ++ "' is not a valid FileExtension")), w)
  /\ exists l w',
       from_s3 bucket_name object_key None w = (Ok l, w')
       /\ heap w' !! l = Some (mkRawFile in_bucket e).
Proof.
  intros Hpath Hkey Hfile Hloader Hclient Hget. split.
  - rewrite (from_file_path_file _ _ _ Hfile), Hpath.
    unfold FileExtension_call. now rewrite by_value_name.
  - rewrite (from_s3_suffix w bucket_name object_key e in_bucket); auto.
    + eexists _, _. split; [reflexivity|]. cbn [heap set_heap].
      apply lookup_new.
    + rewrite Hkey. apply by_name_upper_name.
Qed.

Lemma upper_case_suffix_example :
  from_file_path "SCAN.PDF" office =
    (Raise (ValueError "'PDF' is not a valid FileExtension"), office)
  /\ exists l w',
       from_s3 "docs" "scans/Invoice.PDF" None office = (Ok l, w')
       /\ heap w' !! l = Some (mkRawFile (lit "%PDF-1.7") PDF).
Proof.
  apply (upper_case_suffix office PDF "SCAN.PDF" "docs" "scans/Invoice.PDF"
           (lit "%PDF-1.7") (lit "%PDF-1.7")); reflexivity.
Defined.

(** X10: the suffix of the key is looked at before the content type. *)
Theorem from_s3_suffix_then_content_type
    (w : World) (bucket_name object_key : string) (reported : option string)
    (data : bytes) :
  find_loader (env w) "boto3" = true ->
  s3_client (env w) = inr tt ->
  s3_head_object (env w) bucket_name object_key = inr reported ->
  s3_get_object (env w) bucket_name object_key = inr data ->
  from_s3 bucket_name object_key None w =
  match by_name (Str.upper (suffix_of object_key)) with
  | Some e => from_bytes data e w
  | None =>
      match Str.lookup (default "" reported) content_type_map with
      | Some e => from_bytes data e w
      | None => (Raise (ValueError undetermined), w)
      end
  end.
Proof.
  intros Hloader Hclient Hhead Hget.
  destruct (by_name (Str.upper (suffix_of object_key))) as [e|] eqn:Hname.
  - now rewrite (from_s3_suffix w bucket_name object_key e data).
  - destruct (Str.lookup (default "" reported) content_type_map) as [e|] eqn:Ht.
    + now rewrite (from_s3_reported w bucket_name object_key reported e data).
    + now rewrite (from_s3_unresolved w bucket_name object_key reported).
Qed.

Lemma from_s3_suffix_then_content_type_example :
  from_s3 "docs" "inbox/7f3a" None office = from_bytes (lit "{}") JSON office.
Proof.
  apply (from_s3_suffix_then_content_type office "docs" "inbox/7f3a"
           (Some "application/json") (lit "{}")); reflexivity.
Defined.

(** X11: parameters of the reported content type are kept by [from_s3]. *)
Theorem from_s3_keeps_parameters
    (w : World) (bucket_name object_key ct params : string) :
  find_loader (env w) "boto3" = true ->
  s3_client (env w) = inr tt ->
  by_name (Str.upper (suffix_of object_key)) = None ->
  s3_head_object (env w) bucket_name object_key
    = inr (Some (ct ++ String ";" params)%string) ->
  from_s3 bucket_name object_key None w = (Raise (ValueError undetermined), w).
Proof.
  intros Hloader Hclient Hname Hhead.
  apply from_s3_unresolved with (Some (ct ++ String ";" params)%string); auto.
  apply unmapped_with_parameters.
Qed.

Lemma from_s3_keeps_parameters_example :
  from_s3 "docs" "inbox/page" None office
  = (Raise (ValueError undetermined), office).
Proof.
  apply (from_s3_keeps_parameters office "docs" "inbox/page"
           "text/html" " charset=utf-8"); reflexivity.
Defined.

(** ** Streams, uploads and standard input *)




(** What the upload constructors do once the package is there. *)
Lemma from_litestar_upload_file_loaded file w :
  find_loader (env w) "litestar" = true ->
  from_litestar_upload_file file w =
  match _get_extension_from_content_type (content_type file) with
  | None =>
      (Raise (ValueError
         (format_optional (content_type file)
            ++ " is not a supported file type yet.")), w)
  | Some e => from_stream (Streams.file file) e w
  end.
Proof.
  intros H. unfold from_litestar_upload_file.
  rewrite (bind_ok _ _ w true w) by (unfold gets; now rewrite H).
  cbn [negb].
  now destruct (_get_extension_from_content_type (content_type file)).
Qed.

Lemma from_fastapi_upload_file_loaded file w ct :
  find_loader (env w) "fastapi" = true ->
  content_type file = Some ct ->
  from_fastapi_upload_file file w =
  match _get_extension_from_content_type (content_type file) with
  | None =>
      (Raise (ValueError
         (format_optional (content_type file)
            ++ " is not a supported file type yet.")), w)
  | Some e => from_stream (Streams.file file) e w
  end.
Proof.
  intros H Hct. unfold from_fastapi_upload_file.
  rewrite (bind_ok _ _ w true w) by (unfold gets; now rewrite H).
  cbn [negb]. rewrite Hct.
  now destruct (_get_extension_from_content_type (Some ct)).
Qed.

(** X14: with a content type, the two upload constructors do the same. *)
Theorem upload_constructors_agree (file : UploadFile) (ct : string) (w : World) :
  find_loader (env w) "litestar" = true ->
  find_loader (env w) "fastapi" = true ->
  content_type file = Some ct ->
  from_litestar_upload_file file w = from_fastapi_upload_file file w
  /\ match Str.lookup ct content_type_map with
     | Some e => from_fastapi_upload_file file w = from_stream (Streams.file file) e w
     | None =>
         from_fastapi_upload_file file w =
         (Raise (ValueError (ct ++ " is not a supported file type yet.")), w)
     end.
Proof.
  intros Hl Hf Hct.
  rewrite (from_litestar_upload_file_loaded _ _ Hl),
    (from_fastapi_upload_file_loaded _ _ _ Hf Hct).
  split; [reflexivity|]. rewrite Hct. cbn [_get_extension_from_content_type].
  now destruct (Str.lookup ct content_type_map).
Qed.

Lemma upload_constructors_agree_example :
  from_litestar_upload_file upload office = from_fastapi_upload_file upload office
  /\ from_fastapi_upload_file upload office =
     (Raise (ValueError
        "text/plain; charset=utf-8 is not a supported file type yet."), office).
Proof.
  apply (upload_constructors_agree upload "text/plain; charset=utf-8" office);
    reflexivity.
Defined.

(** X15: without a content type, the two upload constructors raise different
    errors. *)
Theorem upload_without_content_type (file : UploadFile) (w : World) :
  find_loader (env w) "litestar" = true ->
  find_loader (env w) "fastapi" = true ->
  content_type file = None ->
  from_litestar_upload_file file w =
    (Raise (ValueError "None is not a supported file type yet."), w)
  /\ from_fastapi_upload_file file w =
    (Raise (ValueError "The content type of the file is missing."), w).
Proof.
  intros Hl Hf Hct. split.
  - rewrite (from_litestar_upload_file_loaded _ _ Hl), Hct. reflexivity.
  - unfold from_fastapi_upload_file.
    rewrite (bind_ok _ _ w true w) by (unfold gets; now rewrite Hf).
    cbn [negb]. now rewrite Hct.
Qed.

Lemma upload_without_content_type_example :
  from_litestar_upload_file (mkUploadFile None (mkBinaryIO (lit "x") 0)) office =
    (Raise (ValueError "None is not a supported file type yet."), office)
  /\ from_fastapi_upload_file (mkUploadFile None (mkBinaryIO (lit "x") 0)) office =
    (Raise (ValueError "The content type of the file is missing."), office).
Proof.
  apply (upload_without_content_type
           (mkUploadFile None (mkBinaryIO (lit "x") 0)) office); reflexivity.
Defined.

(** X16: a content type with parameters is refused by the upload
    constructors. *)
Theorem upload_content_type_with_parameters
    (file : UploadFile) (ct params : string) (w : World) :
  find_loader (env w) "litestar" = true ->
  find_loader (env w) "fastapi" = true ->
  content_type file = Some (ct ++ String ";" params)%string ->
  from_litestar_upload_file file w =
    (Raise (ValueError
       ((ct ++ String ";" params) ++ " is not a supported file type yet.")), w)
  /\ from_fastapi_upload_file file w =
    (Raise (ValueError
       ((ct ++ String ";" params) ++ " is not a supported file type yet.")), w).
Proof.
  intros Hl Hf Hct.
  rewrite (from_litestar_upload_file_loaded _ _ Hl),
    (from_fastapi_upload_file_loaded _ _ _ Hf Hct), Hct.
  cbn [_get_extension_from_content_type format_optional default].
  rewrite unmapped_with_parameters. now split.
Qed.

Lemma upload_content_type_with_parameters_example :
  from_litestar_upload_file upload office =
    (Raise (ValueError
       "text/plain; charset=utf-8 is not a supported file type yet."), office)
  /\ from_fastapi_upload_file upload office =
    (Raise (ValueError
       "text/plain; charset=utf-8 is not a supported file type yet."), office).
Proof.
  apply (upload_content_type_with_parameters upload "text/plain"
           " charset=utf-8" office); reflexivity.
Defined.

(** ** Archives *)

(** X17: what [from_zip] gives for an archive that can be read. *)
Theorem from_zip_of_archive
    (w : World) (zip_file_path inner_file_path : string)
    (archive : bytes) (listing : list (string * bytes)) :
  fs w !! zip_file_path = Some (File archive) ->
  zip_members (env w) archive = inr listing ->
  from_zip zip_file_path inner_file_path None w =
  match Str.lookup inner_file_path listing with
  | None =>
      (Raise (KeyError
         ("There is no item named '" ++ inner_file_path
            ++ "' in the archive")), w)
  | Some data =>
      match by_value (suffix_of inner_file_path) with
      | Some e => from_bytes data e w
      | None =>
          (Raise (ValueError
             ("'" ++ suffix_of inner_file_path
                ++ "' is not a valid FileExtension")), w)
      end
  end.
Proof.
  intros Hfile Hzip. unfold from_zip.
  rewrite (bind_ok _ _ w archive w) by (unfold read_binary; now rewrite Hfile).
  rewrite (bind_ok _ _ w listing w) by (unfold call; now rewrite Hzip).
  destruct (Str.lookup inner_file_path listing) as [data|]; [|reflexivity].
  unfold FileExtension_call.
  now destruct (by_value (suffix_of inner_file_path)).
Qed.

Lemma from_zip_of_archive_example :
  from_zip "backup.zip" "core.dump" None vault =
  (Raise (ValueError "'dump' is not a valid FileExtension"), vault).
Proof.
  apply (from_zip_of_archive vault "backup.zip" "core.dump" (lit "PK")
           [("readme.txt", lit "read me"); ("core.dump", [x00])]);
    reflexivity.
Defined.

(** X18: an archive that is not there. *)
Theorem from_zip_without_archive
    (w : World) (zip_file_path inner_file_path : string)
    (extension : option FileExtension) :
  fs w !! zip_file_path = None ->
  from_zip zip_file_path inner_file_path extension w =
  (Raise (FileNotFoundError
     ("[Errno 2] No such file or directory: '" ++ zip_file_path ++ "'")), w).
Proof.
  intros H. unfold from_zip, bind, read_binary. now rewrite H.
Qed.

Lemma from_zip_without_archive_example :
  from_zip "old.zip" "readme.txt" (Some TXT) vault =
  (Raise (FileNotFoundError "[Errno 2] No such file or directory: 'old.zip'"),
   vault).
Proof.
  apply (from_zip_without_archive vault "old.zip" "readme.txt" (Some TXT)).
  reflexivity.
Defined.

(** ** Equality *)

Lemma bytes_eq_true (a b : bytes) : bytes_eq a b = true <-> a = b.
Proof.
  split; [|intros ->; apply bytes_eq_refl].
  revert b. induction a as [|x a IH]; intros [|y b] H; try discriminate;
    [reflexivity|].
  cbn in H. apply andb_true_iff in H. destruct H as [Hx Hab].
  apply Byte.byte_dec_bl in Hx. now rewrite Hx, (IH b Hab).
Qed.

Lemma value_inj e1 e2 : value e1 = value e2 -> e1 = e2.
Proof. destruct e1, e2; intros H; try reflexivity; discriminate H. Qed.

(** X19: [==] holds exactly when contents and tag are the same. *)
Theorem eq_compares_fields (self other : loc) (w : World) (f g : RawFile) :
  heap w !! self = Some f ->
  heap w !! other = Some g ->
  exists r,
    __eq__ self other w = (Ok r, w)
    /\ (r = true <-> f = g)
    /\ __eq__ other self w = (Ok r, w).
Proof.
  intros Hf Hg. unfold __eq__.
  rewrite (bind_ok _ _ _ _ _ (deref_spec _ _ _ Hf)),
    (bind_ok _ _ _ _ _ (deref_spec _ _ _ Hg)),
    (bind_ok _ _ _ _ _ (deref_spec _ _ _ Hg)),
    (bind_ok _ _ _ _ _ (deref_spec _ _ _ Hf)).
  eexists. split; [reflexivity|]. split.
  - rewrite andb_true_iff, bytes_eq_true, String.eqb_eq.
    destruct f as [cf ef], g as [cg eg]; cbn. split.
    + intros [-> H]. now rewrite (value_inj _ _ H).
    + intros H. injection H as -> ->. now split.
  - unfold ret. do 2 f_equal.
    destruct (bytes_eq (contents f) (contents g)) eqn:E1.
    + apply bytes_eq_true in E1. rewrite E1, bytes_eq_refl. cbn.
      apply String.eqb_sym.
    + destruct (bytes_eq (contents g) (contents f)) eqn:E2; [|reflexivity].
      apply bytes_eq_true in E2. rewrite E2, bytes_eq_refl in E1.
      discriminate.
Qed.

Lemma eq_compares_fields_example :
  exists r,
    __eq__ 0%nat 1%nat (set_heap [mkRawFile [x61] TXT; mkRawFile [x61] MD] Fixtures.bare)
      = (Ok r, set_heap [mkRawFile [x61] TXT; mkRawFile [x61] MD] Fixtures.bare)
    /\ (r = true <-> mkRawFile [x61] TXT = mkRawFile [x61] MD)
    /\ __eq__ 1%nat 0%nat (set_heap [mkRawFile [x61] TXT; mkRawFile [x61] MD] Fixtures.bare)
      = (Ok r, set_heap [mkRawFile [x61] TXT; mkRawFile [x61] MD] Fixtures.bare).
Proof.
  apply (eq_compares_fields 0%nat 1%nat
           (set_heap [mkRawFile [x61] TXT; mkRawFile [x61] MD] Fixtures.bare));
    reflexivity.
Defined.

(** ** Digests *)

Section Digests.

Import Hashlib.

Lemma length_hexlify bs : String.length (hexlify bs) = (2 * length bs)%nat.
Proof.
  induction bs as [|b bs IH]; [reflexivity|].
  cbn [hexlify fold_right]. fold (hexlify bs).
  unfold hex_of_byte. rewrite !append_String, append_empty.
  cbn [String.length length]. rewrite IH. lia.
Qed.

Definition hex_digits : list ascii := list_ascii_of_string "0123456789abcdef".

Lemma hex_digit_In n : In (hex_digit n) hex_digits.
Proof.
  unfold hex_digit. fold hex_digits.
  destruct (Nat.lt_ge_cases (N.to_nat n) (length hex_digits)) as [H|H].
  - now apply nth_In.
  - rewrite nth_overflow by exact H. cbn. auto.
Qed.

Lemma hexlify_digits bs :
  Forall (fun c => In c hex_digits) (list_ascii_of_string (hexlify bs)).
Proof.
  induction bs as [|b bs IH]; [constructor|].
  cbn [hexlify fold_right]. fold (hexlify bs).
  unfold hex_of_byte. rewrite !append_String, append_empty.
  cbn [list_ascii_of_string].
  repeat (constructor; [apply hex_digit_In|]). exact IH.
Qed.

Lemma length_md5_digest msg : length (md5_digest msg) = 16%nat.
Proof.
  unfold md5_digest.
  destruct (fold_left md5_block (blocks (pad (le_bytes 8) msg)) md5_init)
    as [[[a b] c] d].
  now rewrite !length_app, !length_le_bytes.
Qed.

Lemma length_sha256_round w st i :
  length st = 8%nat -> length (sha256_round w st i) = 8%nat.
Proof.
  intros H. do 9 (destruct st as [|? st]; try discriminate H). reflexivity.
Qed.

Lemma length_sha256_rounds w (rounds : list nat) st :
  length st = 8%nat -> length (fold_left (sha256_round w) rounds st) = 8%nat.
Proof.
  revert st. induction rounds as [|i rounds IH]; intros st H; [exact H|].
  cbn [fold_left]. apply IH. now apply length_sha256_round.
Qed.

Lemma length_sha256_block st block :
  length st = 8%nat -> length (sha256_block st block) = 8%nat.
Proof.
  intros H. unfold sha256_block.
  rewrite length_map, length_combine, length_sha256_rounds, H by exact H.
  reflexivity.
Qed.

Lemma length_sha256_blocks bs st :
  length st = 8%nat -> length (fold_left sha256_block bs st) = 8%nat.
Proof.
  revert st. induction bs as [|b bs IH]; intros st H; [exact H|].
  cbn [fold_left]. apply IH. now apply length_sha256_block.
Qed.

Lemma length_concat_words (ws : list N) :
  length (concat (map (be_bytes 4) ws)) = (4 * length ws)%nat.
Proof.
  induction ws as [|x ws IH]; [reflexivity|].
  cbn [map concat]. rewrite length_app, IH. unfold be_bytes.
  rewrite length_rev, length_le_bytes. cbn [length]. lia.
Qed.

Lemma length_sha256_digest msg : length (sha256_digest msg) = 32%nat.
Proof.
  unfold sha256_digest.
  rewrite length_concat_words, length_sha256_blocks; reflexivity.
Qed.

End Digests.

(** X20: the digests are 32 and 64 lower-case hexadecimal digits. *)
Theorem digests_are_hexadecimal (self : loc) (w : World) (f : RawFile) :
  heap w !! self = Some f ->
  exists md5 sha256,
    compute_md5 self w = (Ok md5, w)
    /\ compute_sha256 self w = (Ok sha256, w)
    /\ String.length md5 = 32%nat
    /\ String.length sha256 = 64%nat
    /\ Forall (fun c => In c hex_digits) (list_ascii_of_string (md5 ++ sha256)).
Proof.
  intros H. unfold compute_md5, compute_sha256.
  rewrite !(bind_ok _ _ _ _ _ (deref_spec _ _ _ H)).
  eexists _, _. split; [reflexivity|]. split; [reflexivity|].
  unfold Hashlib.md5_hexdigest, Hashlib.sha256_hexdigest.
  rewrite !length_hexlify, length_md5_digest, length_sha256_digest.
  split; [reflexivity|]. split; [reflexivity|].
  replace (Hashlib.hexlify (Hashlib.md5_digest (contents f))
             ++ Hashlib.hexlify (Hashlib.sha256_digest (contents f)))%string
    with (Hashlib.hexlify
            (Hashlib.md5_digest (contents f)
               ++ Hashlib.sha256_digest (contents f))).
  - apply hexlify_digits.
  - generalize (Hashlib.sha256_digest (contents f)).
    induction (Hashlib.md5_digest (contents f)) as [|b bs IH]; intros l;
      [reflexivity|].
    cbn [app Hashlib.hexlify fold_right]. fold (Hashlib.hexlify (bs ++ l)).
    fold (Hashlib.hexlify bs). rewrite IH. unfold Hashlib.hex_of_byte.
    now rewrite !append_String, !append_empty.
Qed.

Lemma digests_are_hexadecimal_example :
  exists md5 sha256,
    compute_md5 0%nat Fixtures.hello = (Ok md5, Fixtures.hello)
    /\ compute_sha256 0%nat Fixtures.hello = (Ok sha256, Fixtures.hello)
    /\ String.length md5 = 32%nat
    /\ String.length sha256 = 64%nat
    /\ Forall (fun c => In c hex_digits) (list_ascii_of_string (md5 ++ sha256)).
Proof.
  apply (digests_are_hexadecimal 0%nat Fixtures.hello
           (mkRawFile (lit "Hello, World!") TXT)).
  reflexivity.
Defined.

(** ** A loop that is running *)

Section Queue.

Import Functions.

Context {effect A B : Type}.

(** X21: with a loop running, calls queue their tasks in order and run
    nothing. *)
Theorem fire_and_forget_queues_in_order
    (first : coroutine effect A) (second : coroutine effect B)
    (t : Thread effect) (loop : nat) (l : Loop effect) :
  running t = Some loop ->
  loops t !! loop = Some l ->
  closed l = false ->
  bind effect (fire_and_forget first) (fun _ => fire_and_forget second) t =
  (Ok tt,
   mkThread (Some loop)
     (<[loop := mkLoop (tasks l ++ [forget first; forget second]) false]>
        (loops t))
     (performed t)).
Proof.
  intros Hrun Hloop Hopen. unfold bind at 1.
  rewrite (fire_and_forget_with_loop first t loop l Hrun Hloop Hopen).
  rewrite (fire_and_forget_with_loop second _ loop
             (mkLoop (tasks l ++ [forget first]) false)); cbn [running loops closed tasks performed];
    [|reflexivity| |reflexivity].
  - now rewrite list_insert_insert_eq, <- app_assoc.
  - apply list_lookup_insert_eq. now apply lookup_lt_Some in Hloop.
Qed.

End Queue.

Lemma fire_and_forget_queues_in_order_example :
  Functions.bind unit (Functions.fire_and_forget Fixtures.increment)
    (fun _ => Functions.fire_and_forget Fixtures.increment) looping_thread =
  (Functions.Ok tt,
   Functions.mkThread (Some 0%nat)
     [Functions.mkLoop
        [Functions.forget Fixtures.increment;
         Functions.forget Fixtures.increment] false]
     []).
Proof.
  apply (fire_and_forget_queues_in_order Fixtures.increment Fixtures.increment
           looping_thread 0%nat (Functions.mkLoop [] false)); reflexivity.
Defined.
